(** * SafeVision dashboard: notification, polling and report engine

    A shallow embedding of [api/static/dashboard.js]: the seen-event array
    [notifications], the toast slot driven by [showNotification], the
    thirty-second refresh installed by [init], and the pure report
    generators [generateCSV], [generateEventosCSV] and [generatePDFContent].

    Conventions of the embedding.
    - JavaScript strings are kept as byte strings (UTF-8); only
      concatenation and comparison are used on them.
    - Integer-valued numbers are [Z]; the confidence of a detection is an
      IEEE-754 binary64 value ([PrimFloat.float]), as in the engine.
    - The page state that the handlers read and write (the global array,
      the DOM nodes they touch, pending timers, the console) is one record
      threaded through every handler.
    - An [async] handler is entered when its response has arrived: the code
      touches no state between the call and the last [await]. *)

From Stdlib Require Import ZArith List String Ascii Bool Lia.
From Stdlib Require Import Numbers.DecimalString Numbers.DecimalZ Numbers.DecimalPos.
From Stdlib Require Import PrimFloat FloatOps SpecFloat.
Import ListNotations.

#[local] Set Warnings "-inexact-float".

Local Open Scope string_scope.
Local Open Scope Z_scope.

(* ------------------------------------------------------------------ *)
(** ** Runtime primitives *)
(* ------------------------------------------------------------------ *)

(** The double quote and the line feed, by code. *)
Definition dquote : ascii := "034"%char.
Definition LF : ascii := "010"%char.
Definition comma : ascii := ","%char.

Definition str1 (c : ascii) : string := String c EmptyString.

(** [String(n)] for an integer-valued number: plain decimal, a leading
    minus sign for negatives. The engine prints integers this way below
    10^21 in magnitude, which database keys, array lengths and counters
    are. *)
Definition Number_toString_int (n : Z) : string :=
  NilZero.string_of_int (Z.to_int n).

(** [String(b)] for a boolean. *)
Definition Boolean_toString (b : bool) : string :=
  if b then "true" else "false".

(** [Array.prototype.join] on an array of strings. *)
Fixpoint join (sep : string) (xs : list string) : string :=
  match xs with
  | [] => ""
  | [x] => x
  | x :: rest => x ++ sep ++ join sep rest
  end.

(** [String.prototype.repeat]. *)
Fixpoint repeat_str (s : string) (n : nat) : string :=
  match n with
  | O => ""
  | S k => s ++ repeat_str s k
  end.

(** [Array.prototype.includes] and [Array.prototype.push] on an array of
    event identifiers. *)
Definition includes (arr : list Z) (x : Z) : bool := existsb (Z.eqb x) arr.
Definition push (arr : list Z) (x : Z) : list Z := arr ++ [x].

(* ------------------------------------------------------------------ *)
(** ** Records served by the backend *)
(* ------------------------------------------------------------------ *)

Module Evento.
Record t : Type := mk {
  id : Z;
  tipo : string;
  severidad : string;
  descripcion : string;
  timestamp : string;
  camara_nombre : string;
  resuelto : bool
}.
End Evento.

Module Deteccion.
Record t : Type := mk {
  nombre : string;
  apellido : option string;
  es_desconocido : bool;
  confianza : float;
  timestamp : string
}.
End Deteccion.

Record Stats : Type := mkStats {
  personas_registradas : Z;
  detecciones_hoy : Z;
  personas_unicas_hoy : Z;
  desconocidos_hoy : Z;
  eventos_pendientes : Z;
  camaras_activas : Z
}.

(** What [await fetch(..)] followed by [await response.json()] can give
    the handler: [fetch] rejects, [json()] rejects, or a body with its
    [success] flag and its [data]. A body whose [data] has not the shape
    the handler dereferences makes it throw inside its [try] before it
    has written anything, which leaves the page as [ParseFailure] does. *)
Inductive FetchOutcome (A : Type) : Type :=
| NetworkError
| ParseFailure
| Body (success : bool) (data : A).
Arguments NetworkError {A}.
Arguments ParseFailure {A}.
Arguments Body {A} success data.

(* ------------------------------------------------------------------ *)
(** ** Page state *)
(* ------------------------------------------------------------------ *)

(** The third argument of [showNotification]; every call site passes one
    of these two literals. *)
Inductive ToastType : Type := success | error.

Definition type_name (ty : ToastType) : string :=
  match ty with success => "success" | error => "error" end.

Record NotificationRequest : Type := mkRequest {
  title : string;
  message : string;
  kind : ToastType
}.

(** The [#toast] element with its two text children. *)
Record Toast : Type := mkToast {
  classList : list string;
  toastTitle : string;
  toastMessage : string
}.

(** Content of [#deteccionesList]: untouched markup, the list rendered from
    the fetched detections, or the placeholder paragraph. *)
Inductive DetView : Type :=
| Unrendered
| Listed (ds : list Deteccion.t)
| NoRecientes.

Record State : Type := mkState {
  notifications : list Z;          (* let notifications = [] *)
  toast : Toast;
  notificationCount : string;      (* #notificationCount textContent *)
  statPersonas : string;
  statDetecciones : string;
  statDesconocidos : string;
  statEventos : string;
  deteccionesList : DetView;
  timers : list Z;                 (* due times of pending setTimeout callbacks *)
  intervals : list Z;              (* periods registered with setInterval *)
  clock : Z;                       (* milliseconds since page load *)
  console : list string;           (* console.error labels, oldest first *)
  shown : list NotificationRequest (* every showNotification call, oldest first *)
}.

Definition initial_state : State :=
  {| notifications := [];
     toast := mkToast ["toast"] "" "";
     notificationCount := "0";
     statPersonas := "0"; statDetecciones := "0";
     statDesconocidos := "0"; statEventos := "0";
     deteccionesList := Unrendered;
     timers := []; intervals := []; clock := 0;
     console := []; shown := [] |}.

Definition set_notifications (v : list Z) (st : State) : State :=
  mkState v (toast st) (notificationCount st) (statPersonas st)
    (statDetecciones st) (statDesconocidos st) (statEventos st)
    (deteccionesList st) (timers st) (intervals st) (clock st)
    (console st) (shown st).

Definition set_toast (v : Toast) (st : State) : State :=
  mkState (notifications st) v (notificationCount st) (statPersonas st)
    (statDetecciones st) (statDesconocidos st) (statEventos st)
    (deteccionesList st) (timers st) (intervals st) (clock st)
    (console st) (shown st).

Definition set_notificationCount (v : string) (st : State) : State :=
  mkState (notifications st) (toast st) v (statPersonas st)
    (statDetecciones st) (statDesconocidos st) (statEventos st)
    (deteccionesList st) (timers st) (intervals st) (clock st)
    (console st) (shown st).

Definition set_stat_cells (p d u e : string) (st : State) : State :=
  mkState (notifications st) (toast st) (notificationCount st) p d u e
    (deteccionesList st) (timers st) (intervals st) (clock st)
    (console st) (shown st).

Definition set_deteccionesList (v : DetView) (st : State) : State :=
  mkState (notifications st) (toast st) (notificationCount st) (statPersonas st)
    (statDetecciones st) (statDesconocidos st) (statEventos st)
    v (timers st) (intervals st) (clock st) (console st) (shown st).

Definition set_timers (v : list Z) (st : State) : State :=
  mkState (notifications st) (toast st) (notificationCount st) (statPersonas st)
    (statDetecciones st) (statDesconocidos st) (statEventos st)
    (deteccionesList st) v (intervals st) (clock st) (console st) (shown st).

Definition set_intervals (v : list Z) (st : State) : State :=
  mkState (notifications st) (toast st) (notificationCount st) (statPersonas st)
    (statDetecciones st) (statDesconocidos st) (statEventos st)
    (deteccionesList st) (timers st) v (clock st) (console st) (shown st).

Definition set_clock (v : Z) (st : State) : State :=
  mkState (notifications st) (toast st) (notificationCount st) (statPersonas st)
    (statDetecciones st) (statDesconocidos st) (statEventos st)
    (deteccionesList st) (timers st) (intervals st) v (console st) (shown st).

Definition set_console (v : list string) (st : State) : State :=
  mkState (notifications st) (toast st) (notificationCount st) (statPersonas st)
    (statDetecciones st) (statDesconocidos st) (statEventos st)
    (deteccionesList st) (timers st) (intervals st) (clock st) v (shown st).

Definition set_shown (v : list NotificationRequest) (st : State) : State :=
  mkState (notifications st) (toast st) (notificationCount st) (statPersonas st)
    (statDetecciones st) (statDesconocidos st) (statEventos st)
    (deteccionesList st) (timers st) (intervals st) (clock st) (console st) v.

(** [console.error(label, error)]: the label is what the log keeps. *)
Definition console_error (label : string) (st : State) : State :=
  set_console (console st ++ [label]) st.

(* ------------------------------------------------------------------ *)
(** ** Timers *)
(* ------------------------------------------------------------------ *)

(** The display time of a toast and the refresh period, in milliseconds. *)
Definition DISPLAY_MS : Z := 5000.
Definition REFRESH_MS : Z := 30000.

(** [setTimeout(cb, delay)] where [cb] is the only callback the page ever
    schedules this way in the modelled code: removing [active] from the
    toast. *)
Definition setTimeout (delay : Z) (st : State) : State :=
  set_timers (timers st ++ [clock st + delay]) st.

(** [toast.classList.remove('active')]. *)
Definition remove_active (st : State) : State :=
  set_toast
    (mkToast (filter (fun c => negb (String.eqb c "active")) (classList (toast st)))
             (toastTitle (toast st)) (toastMessage (toast st)))
    st.

(** The event loop reaching time [t]: every callback due by [t] runs, in
    the order it was scheduled, and leaves the timer list. *)
Definition advance (t : Z) (st : State) : State :=
  let due := filter (fun d => d <=? t) (timers st) in
  let pending := filter (fun d => negb (d <=? t)) (timers st) in
  fold_left (fun s _ => remove_active s) due
            (set_clock (Z.max (clock st) t) (set_timers pending st)).

Definition visible (st : State) : bool :=
  existsb (String.eqb "active") (classList (toast st)).

(* ------------------------------------------------------------------ *)
(** ** Notifications (dashboard.js, lines 32-75) *)
(* ------------------------------------------------------------------ *)

(** [showNotification(title, message, type)]. *)
Definition showNotification (ttl msg : string) (ty : ToastType) (st : State) : State :=
  let st1 := set_toast (mkToast ["toast"; type_name ty; "active"] ttl msg) st in
  let st2 := set_shown (shown st1 ++ [mkRequest ttl msg ty]) st1 in
  setTimeout DISPLAY_MS st2.

(** The predicate of the filter on line 38, and the push on line 47. *)
Definition isNew (x : Z) (st : State) : bool :=
  negb (includes (notifications st) x).

Definition markSeen (x : Z) (st : State) : State :=
  set_notifications (push (notifications st) x) st.

Definition count (st : State) : Z := Z.of_nat (List.length (notifications st)).

Definition NUEVO_EVENTO : string := "🚨 Nuevo Evento".

(** The request built for one event (lines 42-46). *)
Definition alert_of (e : Evento.t) : NotificationRequest :=
  mkRequest NUEVO_EVENTO (Evento.tipo e ++ ": " ++ Evento.descripcion e) error.

(** Body of the [forEach] on lines 41-48. *)
Definition notify_event (st : State) (e : Evento.t) : State :=
  markSeen (Evento.id e)
    (showNotification NUEVO_EVENTO (Evento.tipo e ++ ": " ++ Evento.descripcion e) error st).

(** [checkNewEvents()], entered with the outcome of its fetch. *)
Definition checkNewEvents (r : FetchOutcome (list Evento.t)) (st : State) : State :=
  match r with
  | NetworkError | ParseFailure => console_error "Error verificando eventos:" st
  | Body false _ => st
  | Body true data =>
      let newEvents := filter (fun e => isNew (Evento.id e) st) data in
      if (0 <? Z.of_nat (List.length newEvents)) then
        let st' := fold_left notify_event newEvents st in
        set_notificationCount (Number_toString_int (count st')) st'
      else st
  end.

(** [toggleNotifications()]. *)
Definition toggleNotifications (st : State) : State :=
  showNotification "Notificaciones"
    ("Tienes " ++ Number_toString_int (count st) ++ " eventos pendientes") success st.

(* ------------------------------------------------------------------ *)
(** ** Background refresh (lines 14-26, 81-132) *)
(* ------------------------------------------------------------------ *)

(** [loadStats()], entered with the outcome of its fetch. *)
Definition loadStats (r : FetchOutcome Stats) (st : State) : State :=
  match r with
  | NetworkError | ParseFailure => console_error "Error cargando estadísticas:" st
  | Body false _ => st
  | Body true d =>
      set_notificationCount (Number_toString_int (eventos_pendientes d))
        (set_stat_cells (Number_toString_int (personas_registradas d))
                        (Number_toString_int (detecciones_hoy d))
                        (Number_toString_int (desconocidos_hoy d))
                        (Number_toString_int (eventos_pendientes d)) st)
  end.

(** [loadDetecciones()], entered with the outcome of its fetch. *)
Definition loadDetecciones (r : FetchOutcome (list Deteccion.t)) (st : State) : State :=
  match r with
  | NetworkError | ParseFailure => console_error "Error cargando detecciones:" st
  | Body ok ds =>
      if ok && (0 <? Z.of_nat (List.length ds))
      then set_deteccionesList (Listed ds) st
      else set_deteccionesList NoRecientes st
  end.

(** The three requests of one refresh and the order their responses
    arrive in. *)
Inductive Step : Type := StepStats | StepDetecciones | StepEventos.

Record Responses : Type := mkResponses {
  r_stats : FetchOutcome Stats;
  r_detecciones : FetchOutcome (list Deteccion.t);
  r_eventos : FetchOutcome (list Evento.t)
}.

Definition complete (rs : Responses) (st : State) (s : Step) : State :=
  match s with
  | StepStats => loadStats (r_stats rs) st
  | StepDetecciones => loadDetecciones (r_detecciones rs) st
  | StepEventos => checkNewEvents (r_eventos rs) st
  end.

(** One firing of the interval callback (lines 21-25): the three handlers
    are started together and each finishes when its response arrives;
    [order] lists the handlers in order of completion. *)
Definition pollCycle (order : list Step) (rs : Responses) (st : State) : State :=
  fold_left (complete rs) order st.

Definition issue_order : list Step := [StepStats; StepDetecciones; StepEventos].

(** The synchronous part of [init()]: the interval is registered once and
    nothing in the file ever clears it. *)
Definition init (st : State) : State :=
  set_intervals (intervals st ++ [REFRESH_MS]) st.

(** What can happen to the page during a session, as far as the modelled
    handlers go. *)
Inductive Action : Type :=
| Tick (t : Z)
| Poll (order : list Step) (rs : Responses)
| EventsArrive (r : FetchOutcome (list Evento.t))
| StatsArrive (r : FetchOutcome Stats)
| DeteccionesArrive (r : FetchOutcome (list Deteccion.t))
| Toggle.

Definition act (st : State) (a : Action) : State :=
  match a with
  | Tick t => advance t st
  | Poll order rs => pollCycle order rs st
  | EventsArrive r => checkNewEvents r st
  | StatsArrive r => loadStats r st
  | DeteccionesArrive r => loadDetecciones r st
  | Toggle => toggleNotifications st
  end.

Definition run (acts : list Action) (st : State) : State :=
  fold_left act acts st.

(** The event lists a session's actions deliver to [checkNewEvents] with
    [success] set. *)
Definition delivered (a : Action) : list (list Evento.t) :=
  match a with
  | EventsArrive (Body true data) => [data]
  | Poll order rs =>
      match r_eventos rs with
      | Body true data =>
          map (fun _ => data) (filter (fun s => match s with StepEventos => true | _ => false end) order)
      | _ => []
      end
  | _ => []
  end.

Definition ids (data : list Evento.t) : list Z := map Evento.id data.

(* ------------------------------------------------------------------ *)
(** ** Report generators (lines 498-531) *)
(* ------------------------------------------------------------------ *)

Definition NL : string := str1 LF.

Section GenericExport.

(** The values held by the records handed to [generateCSV], and the text
    [Array.prototype.join] emits for one of them (the empty string for
    [null] and [undefined], [String(v)] otherwise). *)
Variable JsValue : Type.
Variable join_text : JsValue -> string.

(** An object as the engine enumerates it: own properties in order. *)
Definition JsObject : Type := list (string * JsValue).

Definition Object_keys (o : JsObject) : list string := map fst o.
Definition Object_values (o : JsObject) : list JsValue := map snd o.

(** The line [generateCSV] emits for one record. *)
Definition csv_line (item : JsObject) : string :=
  join "," (map join_text (Object_values item)).

(** [generateCSV(data)]; [None] stands for a [null] or [undefined]
    argument. *)
Definition generateCSV (data : option (list JsObject)) : string :=
  match data with
  | None => ""
  | Some d =>
      match d with
      | [] => ""
      | first :: _ =>
          let headers := join "," (Object_keys first) in
          let rows := join NL (map csv_line d) in
          headers ++ NL ++ rows
      end
  end.

End GenericExport.

(** Scalars of a JSON payload whose numbers are integers, with the text
    [join] gives them. *)
Inductive Scalar : Type :=
| SNull
| SBool (b : bool)
| SInt (z : Z)
| SStr (s : string).

Definition scalar_text (v : Scalar) : string :=
  match v with
  | SNull => ""
  | SBool b => Boolean_toString b
  | SInt z => Number_toString_int z
  | SStr s => s
  end.

(** *** Events export *)

Definition EVENTOS_HEADERS : string :=
  "ID,Tipo,Severidad,Descripcion,Timestamp,Camara,Resuelto" ++ NL.

Definition quoted (s : string) : string := str1 dquote ++ s ++ str1 dquote.

(** The template literal on line 510. *)
Definition evento_row (e : Evento.t) : string :=
  Number_toString_int (Evento.id e) ++ "," ++
  quoted (Evento.tipo e) ++ "," ++
  quoted (Evento.severidad e) ++ "," ++
  quoted (Evento.descripcion e) ++ "," ++
  quoted (Evento.timestamp e) ++ "," ++
  quoted (Evento.camara_nombre e) ++ "," ++
  Boolean_toString (Evento.resuelto e).

(** [generateEventosCSV(data)]. *)
Definition generateEventosCSV (data : list Evento.t) : string :=
  let headers := EVENTOS_HEADERS in
  let rows := join NL (map evento_row data) in
  headers ++ rows.

(** *** Detections report *)

Section TextReport.

(** [Number::toString], to which [toFixed] defers for values that are not
    finite or not below 10^21. *)
Variable Number_toString : float -> string.

(** The integer [n] for which [n / 10^f - x] is closest to zero, the
    larger one on a tie, for [x = m * 2^e]. *)
Definition nearest_scaled (m : positive) (e : Z) (f : nat) : Z :=
  let num := Z.pos m * 10 ^ Z.of_nat f in
  if 0 <=? e then num * 2 ^ e
  else (2 * num + 2 ^ (- e)) / 2 ^ (- e + 1).

(** Whether [m * 2^e] reaches 10^21. *)
Definition at_least_1e21 (m : positive) (e : Z) : bool :=
  if 0 <=? e then 10 ^ 21 <=? Z.pos m * 2 ^ e
  else 10 ^ 21 * 2 ^ (- e) <=? Z.pos m.

(** Digits of [n] with a point before the last [f] of them, zero-padded on
    the left to [f + 1] digits. *)
Definition fixed_digits (n : Z) (f : nat) : string :=
  let m := Number_toString_int n in
  let k := String.length m in
  let m := if (k <=? f)%nat then repeat_str "0" (f + 1 - k) ++ m else m in
  let k := String.length m in
  if (f =? 0)%nat then m
  else substring 0 (k - f) m ++ "." ++ substring (k - f) f m.

(** [Number.prototype.toFixed(f)], for [0 <= f <= 100]. *)
Definition toFixed (x : float) (f : nat) : string :=
  match Prim2SF x with
  | S754_zero _ => fixed_digits 0 f
  | S754_finite s m e =>
      let sign := if s then "-" else "" in
      if at_least_1e21 m e then sign ++ Number_toString (PrimFloat.abs x)
      else sign ++ fixed_digits (nearest_scaled m e f) f
  | S754_infinity _ | S754_nan => Number_toString x
  end.

(** [det.apellido || '']. *)
Definition or_empty (o : option string) : string :=
  match o with Some s => s | None => "" end.

Definition RULE_CHAR : string := "─".

(** [Array.prototype.forEach] with the index passed to the callback. *)
Fixpoint forEach_idx {A S : Type} (f : S -> A -> nat -> S) (xs : list A) (idx : nat) (acc : S) : S :=
  match xs with
  | [] => acc
  | x :: rest => forEach_idx f rest (Datatypes.S idx) (f acc x idx)
  end.

(** Body of the [forEach] on lines 522-528. *)
Definition append_deteccion (content : string) (det : Deteccion.t) (idx : nat) : string :=
  let content := content ++ Number_toString_int (Z.of_nat idx + 1) ++ ". " ++
                 Deteccion.nombre det ++ " " ++ or_empty (Deteccion.apellido det) ++ NL in
  let content := content ++ "   Fecha: " ++ Deteccion.timestamp det ++ NL in
  let content := content ++ "   Estado: " ++
                 (if Deteccion.es_desconocido det then "DESCONOCIDO" else "CONOCIDO") ++ NL in
  let content := content ++ "   Confianza: " ++
                 toFixed (Deteccion.confianza det * 100)%float 1 ++ "%" ++ NL in
  content ++ NL.

(** [generatePDFContent(data)]; [generado] is the text
    [new Date().toLocaleString('es-MX')] returned when the report was
    built. *)
Definition generatePDFContent (generado : string) (data : list Deteccion.t) : string :=
  let content := "=== REPORTE DE DETECCIONES ===" ++ NL ++ NL in
  let content := content ++ "Generado: " ++ generado ++ NL in
  let content := content ++ "Total de detecciones: " ++
                 Number_toString_int (Z.of_nat (List.length data)) ++ NL ++ NL in
  let content := content ++ repeat_str RULE_CHAR 70 ++ NL ++ NL in
  forEach_idx append_deteccion data 0%nat content.

End TextReport.

(* ------------------------------------------------------------------ *)
(** ** Reading the events export back *)
(* ------------------------------------------------------------------ *)

(** A reader for the text [generateEventosCSV] writes, following its
    quoting convention: after the fixed header, each row is an integer, five
    fields each enclosed in double quotes, and [true] or [false], separated
    by commas; rows are separated by a line feed. A quoted field runs up to
    the next double quote, so commas and line feeds inside it are kept. The
    reader is not part of dashboard.js; it is what the round-trip property
    of the export is measured against. *)

Fixpoint take_until (c : ascii) (s : string) : option (string * string) :=
  match s with
  | EmptyString => None
  | String a rest =>
      if Ascii.eqb a c then Some (EmptyString, rest)
      else match take_until c rest with
           | Some (pre, post) => Some (String a pre, post)
           | None => None
           end
  end.

Fixpoint strip_prefix (p s : string) : option string :=
  match p with
  | EmptyString => Some s
  | String a p' =>
      match s with
      | EmptyString => None
      | String b s' => if Ascii.eqb a b then strip_prefix p' s' else None
      end
  end.

Definition read_int (s : string) : option Z :=
  option_map Z.of_int (NilZero.int_of_string s).

Definition read_quoted (s : string) : option (string * string) :=
  match s with
  | EmptyString => None
  | String a rest => if Ascii.eqb a dquote then take_until dquote rest else None
  end.

Definition read_quoted_comma (s : string) : option (string * string) :=
  match read_quoted s with
  | Some (v, r) =>
      match strip_prefix "," r with
      | Some r' => Some (v, r')
      | None => None
      end
  | None => None
  end.

Definition read_bool (s : string) : option (bool * string) :=
  match strip_prefix "true" s with
  | Some r => Some (true, r)
  | None =>
      match strip_prefix "false" s with
      | Some r => Some (false, r)
      | None => None
      end
  end.

Definition read_row (s : string) : option (Evento.t * string) :=
  match take_until comma s with
  | None => None
  | Some (n, r0) =>
  match read_int n with
  | None => None
  | Some i =>
  match read_quoted_comma r0 with
  | None => None
  | Some (tp, r1) =>
  match read_quoted_comma r1 with
  | None => None
  | Some (sv, r2) =>
  match read_quoted_comma r2 with
  | None => None
  | Some (ds, r3) =>
  match read_quoted_comma r3 with
  | None => None
  | Some (ts, r4) =>
  match read_quoted_comma r4 with
  | None => None
  | Some (cm, r5) =>
  match read_bool r5 with
  | None => None
  | Some (b, r6) => Some (Evento.mk i tp sv ds ts cm b, r6)
  end end end end end end end end.

Fixpoint read_rows (fuel : nat) (s : string) : option (list Evento.t) :=
  match fuel with
  | O => None
  | Datatypes.S fuel' =>
      match read_row s with
      | None => None
      | Some (e, rest) =>
          match rest with
          | EmptyString => Some [e]
          | String a rest' =>
              if Ascii.eqb a LF
              then option_map (cons e) (read_rows fuel' rest')
              else None
          end
      end
  end.

Definition parseEventosCSV (s : string) : option (list Evento.t) :=
  match strip_prefix EVENTOS_HEADERS s with
  | None => None
  | Some EmptyString => Some []
  | Some body => read_rows (S (String.length body)) body
  end.

(** Whether a character occurs in a string. *)
Fixpoint has_char (c : ascii) (s : string) : bool :=
  match s with
  | EmptyString => false
  | String a rest => Ascii.eqb a c || has_char c rest
  end.

Definition has_dquote (s : string) : bool := has_char dquote s.

(** The string fields of an event hold no double quote. *)
Definition plain_fields (e : Evento.t) : bool :=
  negb (has_dquote (Evento.tipo e)) &&
  negb (has_dquote (Evento.severidad e)) &&
  negb (has_dquote (Evento.descripcion e)) &&
  negb (has_dquote (Evento.timestamp e)) &&
  negb (has_dquote (Evento.camara_nombre e)).

(* ------------------------------------------------------------------ *)
(** ** Sample data *)
(* ------------------------------------------------------------------ *)

Definition ev (i : Z) (tp ds : string) : Evento.t :=
  Evento.mk i tp "alta" ds "2024-01-01T10:00:00Z" "Entrada" false.

Definition ev1 : Evento.t := ev 1 "intruso_detectado" "Rostro desconocido".
Definition ev2 : Evento.t := ev 2 "horario_inusual" "Acceso nocturno".

(** An event whose description quotes a word, and two events whose type
    and severity differ only in where a quote-comma-quote sequence sits. *)
Definition ev_quote : Evento.t :=
  ev 3 "persona_no_autorizada" ("Visitante " ++ quoted "sin registro" ++ " en acceso").

Definition ev_a : Evento.t :=
  Evento.mk 4 ("x" ++ quoted "," ++ "y") "z" "d" "t" "c" false.

Definition ev_b : Evento.t :=
  Evento.mk 4 "x" ("y" ++ quoted "," ++ "z") "d" "t" "c" false.

Definition stats0 : Stats := mkStats 12 40 9 3 2 4.

(** A refresh whose events request is refused by the network, whose stats
    request succeeds and whose detections request comes back unsuccessful. *)
Definition outage : Responses :=
  mkResponses (Body true stats0) (Body false []) NetworkError.

Definition ana : Deteccion.t :=
  Deteccion.mk "Ana" (Some "Lopez") false 0.873%float "2024-01-01T10:00:00Z".

(* ------------------------------------------------------------------ *)
(** ** Vocabulary of the statements *)
(* ------------------------------------------------------------------ *)

(** The events a cycle treats as new. *)
Definition fresh_events (st : State) (data : list Evento.t) : list Evento.t :=
  filter (fun e => isNew (Evento.id e) st) data.

(** Distinct identifiers of a list. *)
Definition distinct (l : list Z) : list Z := nodup Z.eq_dec l.

(** [String.prototype.split] on a one-character separator. *)
Fixpoint split_on (c : ascii) (s : string) : list string :=
  match s with
  | EmptyString => [EmptyString]
  | String a rest =>
      if Ascii.eqb a c then EmptyString :: split_on c rest
      else match split_on c rest with
           | x :: xs => String a x :: xs
           | [] => [String a EmptyString]
           end
  end.

Definition lines (s : string) : list string := split_on LF s.

(** A response that did not deliver data: the fetch or the parse threw, or
    the body says [success: false]. *)
Definition thrown {A : Type} (r : FetchOutcome A) : bool :=
  match r with NetworkError | ParseFailure => true | Body _ _ => false end.

Definition failed {A : Type} (r : FetchOutcome A) : bool :=
  match r with Body true _ => false | _ => true end.

Definition failed_step (rs : Responses) (s : Step) : bool :=
  match s with
  | StepStats => failed (r_stats rs)
  | StepDetecciones => failed (r_detecciones rs)
  | StepEventos => failed (r_eventos rs)
  end.

Definition same_step (a b : Step) : bool :=
  match a, b with
  | StepStats, StepStats | StepDetecciones, StepDetecciones
  | StepEventos, StepEventos => true
  | _, _ => false
  end.

(** A completion order with every occurrence of one step left out. *)
Definition without (s : Step) (order : list Step) : list Step :=
  filter (fun s' => negb (same_step s s')) order.

(** The page with the parts blanked that the failure path of step [s] may
    write: the console, and for the detections step the list container. *)
Definition mask (s : Step) (st : State) : State :=
  let st := set_console [] st in
  match s with
  | StepDetecciones => set_deteccionesList Unrendered st
  | _ => st
  end.

(** The toast after alerts for [es] were shown one after the other. *)
Definition last_toast (es : list Evento.t) (t0 : Toast) : Toast :=
  fold_left (fun _ e => mkToast ["toast"; type_name error; "active"] NUEVO_EVENTO
                                (Evento.tipo e ++ ": " ++ Evento.descripcion e)) es t0.

(** Closes [NoDup] goals on explicit lists of numerals. *)
Ltac concrete_NoDup :=
  repeat (apply NoDup_cons; [simpl; intuition discriminate|]); apply NoDup_nil.

(* ------------------------------------------------------------------ *)
(** ** The other text reports (lines 533-562) *)
(* ------------------------------------------------------------------ *)

Section EventReport.

(** [String.prototype.toUpperCase]. *)
Variable toUpperCase : string -> string.

(** Body of the [forEach] on lines 539-545. *)
Definition append_evento (content : string) (evento : Evento.t) (idx : nat) : string :=
  let content := content ++ Number_toString_int (Z.of_nat idx + 1) ++ ". " ++
                 Evento.tipo evento ++ NL in
  let content := content ++ "   Severidad: " ++ toUpperCase (Evento.severidad evento) ++ NL in
  let content := content ++ "   Fecha: " ++ Evento.timestamp evento ++ NL in
  let content := content ++ "   Descripción: " ++ Evento.descripcion evento ++ NL in
  content ++ NL.

(** [generateEventosPDFContent(data)]. *)
Definition generateEventosPDFContent (generado : string) (data : list Evento.t) : string :=
  let content := "=== REPORTE DE EVENTOS ===" ++ NL ++ NL in
  let content := content ++ "Generado: " ++ generado ++ NL in
  let content := content ++ "Total de eventos: " ++
                 Number_toString_int (Z.of_nat (List.length data)) ++ NL ++ NL in
  let content := content ++ repeat_str RULE_CHAR 70 ++ NL ++ NL in
  forEach_idx append_evento data 0%nat content.

End EventReport.

(** [generateStatsPDFContent(stats)]. *)
Definition generateStatsPDFContent (generado : string) (stats : Stats) : string :=
  let content := "=== REPORTE DE ESTADÍSTICAS ===" ++ NL ++ NL in
  let content := content ++ "Generado: " ++ generado ++ NL ++ NL in
  let content := content ++ repeat_str RULE_CHAR 70 ++ NL ++ NL in
  let content := content ++ "Personas Registradas: " ++
                 Number_toString_int (personas_registradas stats) ++ NL in
  let content := content ++ "Detecciones Hoy: " ++
                 Number_toString_int (detecciones_hoy stats) ++ NL in
  let content := content ++ "Personas Únicas Hoy: " ++
                 Number_toString_int (personas_unicas_hoy stats) ++ NL in
  let content := content ++ "Desconocidos Hoy: " ++
                 Number_toString_int (desconocidos_hoy stats) ++ NL in
  let content := content ++ "Eventos Pendientes: " ++
                 Number_toString_int (eventos_pendientes stats) ++ NL in
  let content := content ++ "Cámaras Activas: " ++
                 Number_toString_int (camaras_activas stats) ++ NL in
  content.

(* ------------------------------------------------------------------ *)
(** ** The whole page (lines 138-352, 413-496, 564-647) *)
(* ------------------------------------------------------------------ *)

Definition API_URL : string := "http://localhost:5000/api".

(** A person as [GET /personas] serves it, as far as the page reads it. *)
Record Persona : Type := mkPersona {
  p_nombre : string;
  p_nombre_completo : string;
  p_tipo : string;
  p_fecha_registro : string
}.

(** A value of the configuration payload, with the two conversions the
    page applies to it: [ToBoolean] when it is assigned to [checked], and
    the text an input shows when it is assigned to [value]. *)
Inductive JsonValue : Type :=
| JNull
| JBool (b : bool)
| JNumber (x : float)
| JString (s : string).

Definition ToBoolean (v : JsonValue) : bool :=
  match v with
  | JNull => false
  | JBool b => b
  | JNumber x =>
      match Prim2SF x with
      | S754_zero _ | S754_nan => false
      | _ => true
      end
  | JString s => negb (String.eqb s "")
  end.

Record ConfigData : Type := mkConfigData {
  activar_alertas : JsonValue;
  guardar_frames : JsonValue;
  umbral_confianza : JsonValue;
  dias_retencion_imagenes : JsonValue
}.

(** The object handed to [JSON.stringify] as the body of a request. *)
Inductive Payload : Type :=
| PersonaBody (nombre apellido tipo notas imagen : string)
| ResolverBody (notas : string)
| ConfigBody (alertas frames umbral retencion : string)
| ConfigKeyBody (key : string) (value : JsonValue).

(** A [POST] request: where it goes and what it carries. *)
Record Request : Type := mkPost {
  req_url : string;
  req_body : Payload
}.

(** One call of [downloadFile(content, filename, mimeType)]. *)
Record Download : Type := mkDownload {
  file_content : string;
  file_name : string;
  file_type : string
}.

(** A list container: untouched markup, rendered items, or its
    placeholder paragraph. *)
Inductive ListView (A : Type) : Type :=
| ViewUnrendered
| ViewListed (items : list A)
| ViewPlaceholder.
Arguments ViewUnrendered {A}.
Arguments ViewListed {A} items.
Arguments ViewPlaceholder {A}.

(** The camera and the capture widgets of the registration modal. A stream
    is named by a number; [stopped] lists the streams whose tracks were
    stopped. *)
Record Camera : Type := mkCamera {
  videoStream : option nat;            (* let videoStream = null *)
  capturedImageData : option string;   (* let capturedImageData = null *)
  stopped : list nat;
  video_srcObject : option nat;
  video_display : string;
  captureBtn_display : string;
  retakeBtn_display : string;
  image_display : string;
  image_src : string
}.

Record PersonForm : Type := mkPersonForm {
  personNombre : string;
  personApellido : string;
  personTipo : string;
  personNotas : string
}.

Record ConfigForm : Type := mkConfigForm {
  configAlertas : bool;     (* checked *)
  configFrames : bool;      (* checked *)
  configUmbral : string;    (* value *)
  configRetencion : string  (* value *)
}.

Record Page : Type := mkPage {
  base : State;
  posted : list Request;            (* every POST sent, oldest first *)
  downloads : list Download;        (* every downloadFile call, oldest first *)
  camera : Camera;
  addPersonModal : list string;     (* classList *)
  personForm : PersonForm;
  personFormDefaults : PersonForm;  (* what form.reset() restores *)
  personasList : ListView Persona;
  eventosList : ListView Evento.t;
  configForm : ConfigForm
}.

Definition initial_camera : Camera :=
  mkCamera None None [] None "" "" "" "" "".

(** The page as the script finds it. The two globals start as [null]; what
    the markup decides (inline styles, class lists, form defaults) is taken
    empty here, and no statement below depends on it. *)
Definition initial_page : Page :=
  {| base := initial_state;
     posted := []; downloads := [];
     camera := initial_camera;
     addPersonModal := ["modal"];
     personForm := mkPersonForm "" "" "" "";
     personFormDefaults := mkPersonForm "" "" "" "";
     personasList := ViewUnrendered;
     eventosList := ViewUnrendered;
     configForm := mkConfigForm false false "" "" |}.

Definition set_base (v : State) (pg : Page) : Page :=
  mkPage v (posted pg) (downloads pg) (camera pg) (addPersonModal pg)
         (personForm pg) (personFormDefaults pg) (personasList pg) (eventosList pg)
         (configForm pg).

Definition set_posted (v : list Request) (pg : Page) : Page :=
  mkPage (base pg) v (downloads pg) (camera pg) (addPersonModal pg)
         (personForm pg) (personFormDefaults pg) (personasList pg) (eventosList pg)
         (configForm pg).

Definition set_downloads (v : list Download) (pg : Page) : Page :=
  mkPage (base pg) (posted pg) v (camera pg) (addPersonModal pg)
         (personForm pg) (personFormDefaults pg) (personasList pg) (eventosList pg)
         (configForm pg).

Definition set_camera (v : Camera) (pg : Page) : Page :=
  mkPage (base pg) (posted pg) (downloads pg) v (addPersonModal pg)
         (personForm pg) (personFormDefaults pg) (personasList pg) (eventosList pg)
         (configForm pg).

Definition set_addPersonModal (v : list string) (pg : Page) : Page :=
  mkPage (base pg) (posted pg) (downloads pg) (camera pg) v
         (personForm pg) (personFormDefaults pg) (personasList pg) (eventosList pg)
         (configForm pg).

Definition set_personForm (v : PersonForm) (pg : Page) : Page :=
  mkPage (base pg) (posted pg) (downloads pg) (camera pg) (addPersonModal pg)
         v (personFormDefaults pg) (personasList pg) (eventosList pg)
         (configForm pg).

Definition set_personasList (v : ListView Persona) (pg : Page) : Page :=
  mkPage (base pg) (posted pg) (downloads pg) (camera pg) (addPersonModal pg)
         (personForm pg) (personFormDefaults pg) v (eventosList pg)
         (configForm pg).

Definition set_eventosList (v : ListView Evento.t) (pg : Page) : Page :=
  mkPage (base pg) (posted pg) (downloads pg) (camera pg) (addPersonModal pg)
         (personForm pg) (personFormDefaults pg) (personasList pg) v
         (configForm pg).

Definition set_configForm (v : ConfigForm) (pg : Page) : Page :=
  mkPage (base pg) (posted pg) (downloads pg) (camera pg) (addPersonModal pg)
         (personForm pg) (personFormDefaults pg) (personasList pg) (eventosList pg)
         v.

(** [fetch(url, {method: 'POST', ..., body: JSON.stringify(body)})]: the
    request leaves; its outcome comes back later, as an input. A [GET]
    changes nothing on the page until its outcome arrives, and is not
    recorded. *)
Definition post (url : string) (body : Payload) (pg : Page) : Page :=
  set_posted (posted pg ++ [mkPost url body]) pg.

(** [showNotification] and [console.error] on the whole page. *)
Definition notify (ttl msg : string) (ty : ToastType) (pg : Page) : Page :=
  set_base (showNotification ttl msg ty (base pg)) pg.

Definition log_error (label : string) (pg : Page) : Page :=
  set_base (console_error label (base pg)) pg.

(** [downloadFile(content, filename, mimeType)] (lines 564-574). *)
Definition downloadFile (content filename mimeType : string) (pg : Page) : Page :=
  set_downloads (downloads pg ++ [mkDownload content filename mimeType]) pg.

(** *** Lists of people and events (lines 138-166, 299-327) *)

(** [loadPersonas()], entered with the outcome of its fetch. *)
Definition loadPersonas (r : FetchOutcome (list Persona)) (pg : Page) : Page :=
  match r with
  | NetworkError | ParseFailure => log_error "Error cargando personas:" pg
  | Body ok ps =>
      if ok && (0 <? Z.of_nat (List.length ps))
      then set_personasList (ViewListed ps) pg
      else set_personasList ViewPlaceholder pg
  end.

(** [loadEventos()], entered with the outcome of its fetch. *)
Definition loadEventos (r : FetchOutcome (list Evento.t)) (pg : Page) : Page :=
  match r with
  | NetworkError | ParseFailure => log_error "Error cargando eventos:" pg
  | Body ok es =>
      if ok && (0 <? Z.of_nat (List.length es))
      then set_eventosList (ViewListed es) pg
      else set_eventosList ViewPlaceholder pg
  end.

(** [resolverEvento(eventoId)]: the call, and the continuation entered with
    the outcome. On success the continuation also starts [loadEventos()] and
    [loadStats()], whose outcomes arrive as inputs of their own. *)
Definition resolverEvento_call (eventoId : Z) (pg : Page) : Page :=
  post (API_URL ++ "/eventos/" ++ Number_toString_int eventoId ++ "/resolver")
       (ResolverBody "Resuelto desde dashboard") pg.

Definition resolverEvento_response (r : FetchOutcome unit) (pg : Page) : Page :=
  match r with
  | NetworkError | ParseFailure => log_error "Error resolviendo evento:" pg
  | Body true _ => notify "Éxito" "Evento resuelto correctamente" success pg
  | Body false _ => pg
  end.

(** *** Camera and registration (lines 168-275) *)

(** What [navigator.mediaDevices.getUserMedia] answers. *)
Inductive MediaOutcome : Type :=
| Granted (stream : nat)
| Denied.

(** [openAddPersonModal()]. *)
Definition openAddPersonModal (pg : Page) : Page :=
  if existsb (String.eqb "active") (addPersonModal pg) then pg
  else set_addPersonModal (addPersonModal pg ++ ["active"]) pg.

(** [stopCamera()]. *)
Definition stopCamera (pg : Page) : Page :=
  let cam := camera pg in
  match videoStream cam with
  | Some s =>
      set_camera (mkCamera None (capturedImageData cam) (stopped cam ++ [s])
                           (video_srcObject cam) "none" (captureBtn_display cam)
                           (retakeBtn_display cam) (image_display cam) (image_src cam)) pg
  | None => pg
  end.

(** [closeModal('addPersonModal')], the modal of the script. *)
Definition closeModal (pg : Page) : Page :=
  let pg := set_addPersonModal
              (filter (fun c => negb (String.eqb c "active")) (addPersonModal pg)) pg in
  match videoStream (camera pg) with
  | Some _ => stopCamera pg
  | None => pg
  end.

(** [startCamera()], entered with the answer of [getUserMedia]. *)
Definition startCamera (m : MediaOutcome) (pg : Page) : Page :=
  match m with
  | Granted s =>
      let cam := camera pg in
      let pg := set_camera (mkCamera (Some s) (capturedImageData cam) (stopped cam)
                                     (Some s) "block" "inline-block"
                                     (retakeBtn_display cam) (image_display cam)
                                     (image_src cam)) pg in
      notify "Cámara" "Cámara activada. Colócate frente a ella y presiona Capturar"
             success pg
  | Denied =>
      notify "Error" "No se pudo acceder a la cámara" error
             (log_error "Error accediendo a la cámara:" pg)
  end.

(** [capturePhoto()]; [dataURL] is what [canvas.toDataURL('image/jpeg')]
    returned. *)
Definition capturePhoto (dataURL : string) (pg : Page) : Page :=
  let cam := camera pg in
  let pg := set_camera (mkCamera (videoStream cam) (Some dataURL) (stopped cam)
                                 (video_srcObject cam) "none" "none" "inline-block"
                                 "block" dataURL) pg in
  let pg := stopCamera pg in
  notify "Foto Capturada" "Foto capturada correctamente" success pg.

(** [retakePhoto()] up to its call of [startCamera()], whose answer arrives
    as an input of its own. *)
Definition retakePhoto (pg : Page) : Page :=
  let cam := camera pg in
  set_camera (mkCamera (videoStream cam) None (stopped cam) (video_srcObject cam)
                       (video_display cam) (captureBtn_display cam) "none" "none"
                       (image_src cam)) pg.

(** [!capturedImageData]: [null] and the empty string are falsy. *)
Definition no_photo (pg : Page) : bool :=
  match capturedImageData (camera pg) with
  | None => true
  | Some s => String.eqb s ""
  end.

Definition photo_text (pg : Page) : string :=
  match capturedImageData (camera pg) with Some s => s | None => "" end.

(** [submitNewPerson(event)] up to its fetch. *)
Definition submitNewPerson_call (pg : Page) : Page :=
  if no_photo pg then notify "Error" "Debes capturar una foto" error pg
  else
    let f := personForm pg in
    post (API_URL ++ "/personas")
         (PersonaBody (personNombre f) (personApellido f) (personTipo f)
                      (personNotas f) (photo_text pg)) pg.

(** The continuation of [submitNewPerson], entered with the outcome; the
    string of an unsuccessful body is its [error]. On success it also
    starts [loadPersonas()] and [loadStats()]. *)
Definition submitNewPerson_response (r : FetchOutcome string) (pg : Page) : Page :=
  match r with
  | NetworkError | ParseFailure =>
      notify "Error" "Error al registrar persona" error
             (log_error "Error registrando persona:" pg)
  | Body true _ =>
      let pg := notify "Éxito" "Persona registrada correctamente" success pg in
      let pg := closeModal pg in
      let pg := set_personForm (personFormDefaults pg) pg in
      let cam := camera pg in
      set_camera (mkCamera (videoStream cam) None (stopped cam) (video_srcObject cam)
                           (video_display cam) (captureBtn_display cam)
                           (retakeBtn_display cam) (image_display cam)
                           (image_src cam)) pg
  | Body false err => notify "Error" err error pg
  end.

(** *** Configuration (lines 580-647) *)

(** The text an input shows after [input.value = v]. *)
Section ConfigTexts.

Variable Number_toString : float -> string.

Definition value_text (v : JsonValue) : string :=
  match v with
  | JNull => ""
  | JBool b => Boolean_toString b
  | JNumber x => Number_toString x
  | JString s => s
  end.

(** [loadConfig()], entered with the outcome of its fetch. *)
Definition loadConfig (r : FetchOutcome ConfigData) (pg : Page) : Page :=
  match r with
  | NetworkError | ParseFailure => log_error "Error cargando configuración:" pg
  | Body true d =>
      let pg := set_configForm
                  (mkConfigForm (ToBoolean (activar_alertas d))
                                (ToBoolean (guardar_frames d))
                                (value_text (umbral_confianza d))
                                (value_text (dias_retencion_imagenes d))) pg in
      notify "Configuración" "Configuración cargada correctamente" success pg
  | Body false _ => pg
  end.

End ConfigTexts.

(** The object [saveAllConfig()] builds from the form. *)
Definition config_payload (c : ConfigForm) : Payload :=
  ConfigBody (if configAlertas c then "1" else "0")
             (if configFrames c then "1" else "0")
             (configUmbral c) (configRetencion c).

(** [saveAllConfig()]: the call and the continuation. *)
Definition saveAllConfig_call (pg : Page) : Page :=
  post (API_URL ++ "/configuracion") (config_payload (configForm pg)) pg.

Definition saveAllConfig_response (r : FetchOutcome unit) (pg : Page) : Page :=
  match r with
  | NetworkError | ParseFailure =>
      notify "Error" "Error al guardar configuración" error
             (log_error "Error guardando configuración:" pg)
  | Body true _ => notify "Éxito" "Toda la configuración ha sido guardada" success pg
  | Body false _ => pg
  end.

(** [updateConfig(key, value)]: the call and the continuation. *)
Definition updateConfig_call (key : string) (value : JsonValue) (pg : Page) : Page :=
  post (API_URL ++ "/configuracion") (ConfigKeyBody key value) pg.

Definition updateConfig_response (r : FetchOutcome unit) (pg : Page) : Page :=
  match r with
  | NetworkError | ParseFailure => log_error "Error actualizando configuración:" pg
  | Body true _ => notify "Guardado" "Configuración actualizada" success pg
  | Body false _ => pg
  end.

(** The configuration the server holds after it stored a [ConfigBody] as
    it came, each value a string. *)
Definition stored_config (p : Payload) : option ConfigData :=
  match p with
  | ConfigBody a f u r => Some (mkConfigData (JString a) (JString f) (JString u) (JString r))
  | _ => None
  end.

(** *** Exports (lines 277-293, 413-496) *)

Section PageHandlers.

Variable JsValue : Type.
Variable join_text : JsValue -> string.
Variable Number_toString : float -> string.
Variable toUpperCase : string -> string.

(** The rows of a generic export as the body carries them; [None] is a
    [data] that is [null]. *)
Definition Rows : Type := option (list (JsObject JsValue)).

(** [exportPDF()]: up to its fetch, and the continuation. [generado] is
    the time text the report generator reads when it runs. *)
Definition exportPDF_call (pg : Page) : Page :=
  notify "Generando" "Creando reporte PDF..." success pg.

Definition exportPDF_response (r : FetchOutcome (list Deteccion.t)) (generado : string)
    (pg : Page) : Page :=
  match r with
  | NetworkError | ParseFailure => notify "Error" "Error al generar reporte" error pg
  | Body true data =>
      let content := generatePDFContent Number_toString generado data in
      let pg := downloadFile content "reporte_detecciones.txt" "text/plain" pg in
      notify "Éxito" "Reporte generado (formato simplificado)" success pg
  | Body false _ => pg
  end.

(** [exportExcel()]. *)
Definition exportExcel_call (pg : Page) : Page :=
  notify "Generando" "Creando archivo Excel..." success pg.

Definition exportExcel_response (r : FetchOutcome Rows) (pg : Page) : Page :=
  match r with
  | NetworkError | ParseFailure => notify "Error" "Error al generar Excel" error pg
  | Body true data =>
      let csv := generateCSV JsValue join_text data in
      let pg := downloadFile csv "detecciones.csv" "text/csv" pg in
      notify "Éxito" "Archivo Excel generado" success pg
  | Body false _ => pg
  end.

(** [exportEventosPDF()]. *)
Definition exportEventosPDF_call (pg : Page) : Page :=
  notify "Generando" "Creando reporte de eventos..." success pg.

Definition exportEventosPDF_response (r : FetchOutcome (list Evento.t)) (generado : string)
    (pg : Page) : Page :=
  match r with
  | NetworkError | ParseFailure => notify "Error" "Error al generar reporte" error pg
  | Body true data =>
      let content := generateEventosPDFContent toUpperCase generado data in
      let pg := downloadFile content "reporte_eventos.txt" "text/plain" pg in
      notify "Éxito" "Reporte generado" success pg
  | Body false _ => pg
  end.

(** [exportEventosExcel()]. *)
Definition exportEventosExcel_call (pg : Page) : Page :=
  notify "Generando" "Creando archivo Excel de eventos..." success pg.

Definition exportEventosExcel_response (r : FetchOutcome (list Evento.t)) (pg : Page) : Page :=
  match r with
  | NetworkError | ParseFailure => notify "Error" "Error al generar Excel" error pg
  | Body true data =>
      let csv := generateEventosCSV data in
      let pg := downloadFile csv "eventos.csv" "text/csv" pg in
      notify "Éxito" "Archivo Excel generado" success pg
  | Body false _ => pg
  end.

(** [exportStatsPDF()]. *)
Definition exportStatsPDF_call (pg : Page) : Page :=
  notify "Generando" "Creando reporte de estadísticas..." success pg.

Definition exportStatsPDF_response (r : FetchOutcome Stats) (generado : string)
    (pg : Page) : Page :=
  match r with
  | NetworkError | ParseFailure => notify "Error" "Error al generar reporte" error pg
  | Body true data =>
      let content := generateStatsPDFContent generado data in
      let pg := downloadFile content "reporte_estadisticas.txt" "text/plain" pg in
      notify "Éxito" "Reporte generado" success pg
  | Body false _ => pg
  end.

(** [exportPersonas()]. *)
Definition exportPersonas_call (pg : Page) : Page :=
  notify "Exportando" "Generando archivo Excel..." success pg.

Definition exportPersonas_response (r : FetchOutcome Rows) (pg : Page) : Page :=
  match r with
  | NetworkError | ParseFailure =>
      notify "Error" "Error al exportar" error (log_error "Error exportando:" pg)
  | Body true data =>
      let csv := generateCSV JsValue join_text data in
      let pg := downloadFile csv "personas_registradas.csv" "text/csv" pg in
      notify "Éxito" "Archivo exportado correctamente" success pg
  | Body false _ => pg
  end.

(** The six exports, and the outcome that arrives for each. *)
Inductive Export : Type :=
| ExportPDF | ExportExcel | ExportEventosPDF
| ExportEventosExcel | ExportStatsPDF | ExportPersonas.

Inductive ExportOutcome : Type :=
| OutPDF (r : FetchOutcome (list Deteccion.t)) (generado : string)
| OutExcel (r : FetchOutcome Rows)
| OutEventosPDF (r : FetchOutcome (list Evento.t)) (generado : string)
| OutEventosExcel (r : FetchOutcome (list Evento.t))
| OutStatsPDF (r : FetchOutcome Stats) (generado : string)
| OutPersonas (r : FetchOutcome Rows).

Definition export_call (x : Export) (pg : Page) : Page :=
  match x with
  | ExportPDF => exportPDF_call pg
  | ExportExcel => exportExcel_call pg
  | ExportEventosPDF => exportEventosPDF_call pg
  | ExportEventosExcel => exportEventosExcel_call pg
  | ExportStatsPDF => exportStatsPDF_call pg
  | ExportPersonas => exportPersonas_call pg
  end.

Definition export_response (o : ExportOutcome) (pg : Page) : Page :=
  match o with
  | OutPDF r generado => exportPDF_response r generado pg
  | OutExcel r => exportExcel_response r pg
  | OutEventosPDF r generado => exportEventosPDF_response r generado pg
  | OutEventosExcel r => exportEventosExcel_response r pg
  | OutStatsPDF r generado => exportStatsPDF_response r generado pg
  | OutPersonas r => exportPersonas_response r pg
  end.

(** *** Sessions on the whole page *)

(** What can happen to the page: the refresh and the clock (the actions
    of the notification engine, on the page's [base]), clicks, typing, and
    the outcomes of the requests and of the camera prompt. *)
Inductive PageAction : Type :=
| OnBase (a : Action)
| ExportClick (x : Export)
| ExportArrives (o : ExportOutcome)
| OpenModal
| CloseModal
| CameraAnswers (m : MediaOutcome)
| StopCamera
| Capture (dataURL : string)
| Retake
| TypePerson (f : PersonForm)
| Submit
| SubmitArrives (r : FetchOutcome string)
| PersonasListArrives (r : FetchOutcome (list Persona))
| EventosListArrives (r : FetchOutcome (list Evento.t))
| Resolver (eventoId : Z)
| ResolverArrives (r : FetchOutcome unit)
| ConfigArrives (r : FetchOutcome ConfigData)
| EditConfig (c : ConfigForm)
| SaveAll
| SaveAllArrives (r : FetchOutcome unit)
| Update (key : string) (value : JsonValue)
| UpdateArrives (r : FetchOutcome unit).

Definition page_act (pg : Page) (a : PageAction) : Page :=
  match a with
  | OnBase b => set_base (act (base pg) b) pg
  | ExportClick x => export_call x pg
  | ExportArrives o => export_response o pg
  | OpenModal => openAddPersonModal pg
  | CloseModal => closeModal pg
  | CameraAnswers m => startCamera m pg
  | StopCamera => stopCamera pg
  | Capture dataURL => capturePhoto dataURL pg
  | Retake => retakePhoto pg
  | TypePerson f => set_personForm f pg
  | Submit => submitNewPerson_call pg
  | SubmitArrives r => submitNewPerson_response r pg
  | PersonasListArrives r => loadPersonas r pg
  | EventosListArrives r => loadEventos r pg
  | Resolver eventoId => resolverEvento_call eventoId pg
  | ResolverArrives r => resolverEvento_response r pg
  | ConfigArrives r => loadConfig Number_toString r pg
  | EditConfig c => set_configForm c pg
  | SaveAll => saveAllConfig_call pg
  | SaveAllArrives r => saveAllConfig_response r pg
  | Update key value => updateConfig_call key value pg
  | UpdateArrives r => updateConfig_response r pg
  end.

Definition page_run (acts : list PageAction) (pg : Page) : Page :=
  fold_left page_act acts pg.

End PageHandlers.

(** An upper-casing of the unaccented Latin letters, for the examples. *)
Definition upper_ascii (c : ascii) : ascii :=
  let n := nat_of_ascii c in
  if ((97 <=? n) && (n <=? 122))%nat then ascii_of_nat (n - 32) else c.

Fixpoint upper_latin (s : string) : string :=
  match s with
  | EmptyString => EmptyString
  | String c rest => String (upper_ascii c) (upper_latin rest)
  end.

(** A stand-in for [Number::toString] in the examples, none of which
    reaches it. *)
Definition sample_number_text (x : float) : string := "NaN".

(* ------------------------------------------------------------------ *)
(** ** Vocabulary of the statements about the whole page *)
(* ------------------------------------------------------------------ *)

(** A request shown by [checkNewEvents]: no other call site uses its
    title. *)
Definition is_alert (r : NotificationRequest) : bool :=
  String.eqb (title r) NUEVO_EVENTO.

Definition alerts (st : State) : list NotificationRequest :=
  filter is_alert (shown st).

(** Concatenation of a list of strings. *)
Definition concat_str (l : list string) : string := fold_right append "" l.

(** [f] applied to each element with its index, counted from [i]. *)
Fixpoint blocks_from {A : Type} (f : nat -> A -> string) (i : nat) (l : list A) : list string :=
  match l with
  | [] => []
  | x :: rest => f i x :: blocks_from f (S i) rest
  end.

(** Whether a response carries data the handler uses. *)
Definition delivered_ok {A : Type} (r : FetchOutcome A) : bool := negb (failed r).

Section ExportVocabulary.

Variable JsValue : Type.
Variable join_text : JsValue -> string.
Variable Number_toString : float -> string.
Variable toUpperCase : string -> string.

(** The file an export outcome produces, if it produces one. *)
Definition file_of (o : ExportOutcome JsValue) : list Download :=
  match o with
  | OutPDF _ (Body true data) generado =>
      [mkDownload (generatePDFContent Number_toString generado data)
                  "reporte_detecciones.txt" "text/plain"]
  | OutExcel _ (Body true data) =>
      [mkDownload (generateCSV JsValue join_text data) "detecciones.csv" "text/csv"]
  | OutEventosPDF _ (Body true data) generado =>
      [mkDownload (generateEventosPDFContent toUpperCase generado data)
                  "reporte_eventos.txt" "text/plain"]
  | OutEventosExcel _ (Body true data) =>
      [mkDownload (generateEventosCSV data) "eventos.csv" "text/csv"]
  | OutStatsPDF _ (Body true data) generado =>
      [mkDownload (generateStatsPDFContent generado data)
                  "reporte_estadisticas.txt" "text/plain"]
  | OutPersonas _ (Body true data) =>
      [mkDownload (generateCSV JsValue join_text data)
                  "personas_registradas.csv" "text/csv"]
  | _ => []
  end.

(** An export outcome whose body says [success: false]. *)
Definition refused (o : ExportOutcome JsValue) : bool :=
  match o with
  | OutPDF _ (Body false _) _ | OutExcel _ (Body false _)
  | OutEventosPDF _ (Body false _) _ | OutEventosExcel _ (Body false _)
  | OutStatsPDF _ (Body false _) _ | OutPersonas _ (Body false _) => true
  | _ => false
  end.

Definition files_of (a : PageAction JsValue) : list Download :=
  match a with
  | ExportArrives _ o => file_of o
  | _ => []
  end.

End ExportVocabulary.

(** No string field of the event holds the character. *)
Definition fields_free (c : ascii) (e : Evento.t) : bool :=
  negb (has_char c (Evento.tipo e)) &&
  negb (has_char c (Evento.severidad e)) &&
  negb (has_char c (Evento.descripcion e)) &&
  negb (has_char c (Evento.timestamp e)) &&
  negb (has_char c (Evento.camara_nombre e)).

(** The page with the badge and the console blanked. *)
Definition settled (st : State) : State :=
  set_console [] (set_notificationCount "" st).

(** A stream that is neither held nor stopped. *)
Definition adrift (s : nat) (pg : Page) : Prop :=
  videoStream (camera pg) <> Some s /\ ~ In s (stopped (camera pg)).

(** The images carried by the registration requests among [reqs]. *)
Definition persona_images (reqs : list Request) : list string :=
  flat_map (fun q => match req_body q with
                     | PersonaBody _ _ _ _ imagen => [imagen]
                     | _ => []
                     end) reqs.

(* ================================================================== *)
(** * Properties *)
(* ================================================================== *)

(* ------------------------------------------------------------------ *)
(** ** The seen-event array *)
(* ------------------------------------------------------------------ *)

Lemma includes_In (arr : list Z) (x : Z) : includes arr x = true <-> In x arr.
Proof.
  unfold includes. rewrite existsb_exists. split.
  - intros [y [Hy Heq]]. apply Z.eqb_eq in Heq. now subst.
  - intros H. exists x. split; [assumption | apply Z.eqb_refl].
Qed.

Lemma includes_app (a b : list Z) (x : Z) :
  includes (a ++ b) x = includes a x || includes b x.
Proof. unfold includes. apply existsb_app. Qed.

Lemma ids_filter (p : Z -> bool) (data : list Evento.t) :
  ids (filter (fun e => p (Evento.id e)) data) = filter p (ids data).
Proof.
  unfold ids. induction data as [|e data IH]; simpl; [reflexivity|].
  destruct (p (Evento.id e)); simpl; now rewrite IH.
Qed.

(** What the [forEach] of [checkNewEvents] leaves behind, field by field. *)
Lemma forEach_notifications (es : list Evento.t) (st : State) :
  notifications (fold_left notify_event es st) = (notifications st ++ ids es)%list.
Proof.
  revert st. induction es as [|e es IH]; intros st; simpl.
  - now rewrite app_nil_r.
  - rewrite IH. simpl. unfold push. now rewrite <- app_assoc.
Qed.

Lemma forEach_shown (es : list Evento.t) (st : State) :
  shown (fold_left notify_event es st) = (shown st ++ map alert_of es)%list.
Proof.
  revert st. induction es as [|e es IH]; intros st; simpl.
  - now rewrite app_nil_r.
  - rewrite IH. simpl. now rewrite <- app_assoc.
Qed.

Lemma forEach_intervals (es : list Evento.t) (st : State) :
  intervals (fold_left notify_event es st) = intervals st.
Proof.
  revert st. induction es as [|e es IH]; intros st; simpl; [reflexivity|].
  now rewrite IH.
Qed.

Lemma length_pos_test {A : Type} (l : list A) :
  (0 <? Z.of_nat (List.length l)) = false -> l = [].
Proof.
  destruct l; [reflexivity|]. simpl List.length. intros H.
  apply Z.ltb_ge in H. lia.
Qed.

Lemma checkNewEvents_notifications (data : list Evento.t) (st : State) :
  notifications (checkNewEvents (Body true data) st) =
  (notifications st ++ ids (fresh_events st data))%list.
Proof.
  unfold checkNewEvents. fold (fresh_events st data).
  destruct (0 <? Z.of_nat (List.length (fresh_events st data))) eqn:E.
  - simpl. apply forEach_notifications.
  - apply length_pos_test in E. rewrite E. simpl. now rewrite app_nil_r.
Qed.

Lemma checkNewEvents_shown (data : list Evento.t) (st : State) :
  shown (checkNewEvents (Body true data) st) =
  (shown st ++ map alert_of (fresh_events st data))%list.
Proof.
  unfold checkNewEvents. fold (fresh_events st data).
  destruct (0 <? Z.of_nat (List.length (fresh_events st data))) eqn:E.
  - simpl. apply forEach_shown.
  - apply length_pos_test in E. rewrite E. simpl. now rewrite app_nil_r.
Qed.

Lemma checkNewEvents_none_new (data : list Evento.t) (st : State) :
  (forall e, In e data -> isNew (Evento.id e) st = false) ->
  checkNewEvents (Body true data) st = st.
Proof.
  intros H. unfold checkNewEvents.
  replace (filter (fun e => isNew (Evento.id e) st) data) with (@nil Evento.t).
  - reflexivity.
  - symmetry. induction data as [|e data IH]; simpl; [reflexivity|].
    rewrite (H e (or_introl eq_refl)). apply IH. intros e' He'. apply H. now right.
Qed.

Lemma fresh_ids (st : State) (data : list Evento.t) :
  ids (fresh_events st data) =
  filter (fun x => negb (includes (notifications st) x)) (ids data).
Proof. unfold fresh_events, isNew. apply (ids_filter (fun x => negb (includes (notifications st) x))). Qed.

(** Timer callbacks touch the toast only. *)
Lemma fold_remove_active_notifications {A : Type} (l : list A) (st : State) :
  notifications (fold_left (fun s _ => remove_active s) l st) = notifications st.
Proof. revert st. induction l; intros st; simpl; [reflexivity|]. now rewrite IHl. Qed.

Lemma fold_remove_active_shown {A : Type} (l : list A) (st : State) :
  shown (fold_left (fun s _ => remove_active s) l st) = shown st.
Proof. revert st. induction l; intros st; simpl; [reflexivity|]. now rewrite IHl. Qed.

Lemma advance_notifications (t : Z) (st : State) :
  notifications (advance t st) = notifications st.
Proof. unfold advance. now rewrite fold_remove_active_notifications. Qed.

Lemma advance_shown (t : Z) (st : State) : shown (advance t st) = shown st.
Proof. unfold advance. now rewrite fold_remove_active_shown. Qed.

Lemma NoDup_fresh_append (seen new : list Z) :
  NoDup seen -> NoDup new ->
  NoDup (seen ++ filter (fun x => negb (includes seen x)) new).
Proof.
  intros Hs Hn. apply NoDup_app.
  - assumption.
  - now apply NoDup_filter.
  - intros x Hx Hf. apply filter_In in Hf. destruct Hf as [_ Hf].
    apply includes_In in Hx. rewrite Hx in Hf. discriminate.
Qed.

Lemma distinct_superset (a b : list Z) :
  NoDup b -> incl a b -> List.length (distinct (a ++ b)) = List.length b.
Proof.
  intros Hb Hincl. unfold distinct. apply Nat.le_antisymm.
  - apply NoDup_incl_length; [apply NoDup_nodup|].
    intros x Hx. apply nodup_In in Hx. apply in_app_or in Hx.
    destruct Hx; [now apply Hincl | assumption].
  - apply NoDup_incl_length; [assumption|].
    intros x Hx. apply nodup_In. apply in_or_app. now right.
Qed.

(** Handlers other than [checkNewEvents] never write the array. *)
Lemma loadStats_notifications (r : FetchOutcome Stats) (st : State) :
  notifications (loadStats r st) = notifications st.
Proof. destruct r as [| |[|] d]; reflexivity. Qed.

Lemma loadDetecciones_notifications (r : FetchOutcome (list Deteccion.t)) (st : State) :
  notifications (loadDetecciones r st) = notifications st.
Proof.
  destruct r as [| |ok ds]; try reflexivity.
  unfold loadDetecciones. now destruct (ok && _).
Qed.

(** The identifiers a response adds, when it adds any. *)
Lemma checkNewEvents_extends (r : FetchOutcome (list Evento.t)) (st : State) :
  exists added,
    notifications (checkNewEvents r st) = (notifications st ++ added)%list /\
    (forall x, In x added ->
       exists data, r = Body true data /\ In x (ids data) /\ isNew x st = true) /\
    (forall data x, r = Body true data -> In x (ids data) ->
       In x (notifications st ++ added)%list).
Proof.
  destruct r as [| |[|] data].
  1,2,4: exists []; simpl; rewrite app_nil_r; repeat split;
         try reflexivity; try (intros; contradiction); try (intros; discriminate).
  exists (ids (fresh_events st data)). split; [apply checkNewEvents_notifications|]. split.
  - intros x Hx. exists data. rewrite fresh_ids in Hx. apply filter_In in Hx.
    destruct Hx as [Hin Hnew]. unfold isNew. now repeat split.
  - intros data' x Heq Hx. injection Heq as <-. apply in_or_app.
    destruct (includes (notifications st) x) eqn:E.
    + left. now apply includes_In.
    + right. rewrite fresh_ids. apply filter_In. split; [assumption|]. now rewrite E.
Qed.

Lemma pollCycle_cons (s : Step) (order : list Step) (rs : Responses) (st : State) :
  pollCycle (s :: order) rs st = pollCycle order rs (complete rs st s).
Proof. reflexivity. Qed.

(** Nothing a session does removes an identifier from the array. *)
Lemma complete_keeps (rs : Responses) (s : Step) (st : State) (x : Z) :
  In x (notifications st) -> In x (notifications (complete rs st s)).
Proof.
  intros H. destruct s; simpl.
  - now rewrite loadStats_notifications.
  - now rewrite loadDetecciones_notifications.
  - destruct (checkNewEvents_extends (r_eventos rs) st) as [added [-> _]].
    apply in_or_app. now left.
Qed.

Lemma pollCycle_keeps (order : list Step) (rs : Responses) (st : State) (x : Z) :
  In x (notifications st) -> In x (notifications (pollCycle order rs st)).
Proof.
  revert st. induction order as [|s order IH]; intros st H; [assumption|].
  rewrite pollCycle_cons. apply IH. now apply complete_keeps.
Qed.

Lemma act_keeps (a : Action) (st : State) (x : Z) :
  In x (notifications st) -> In x (notifications (act st a)).
Proof.
  intros H. destruct a; simpl.
  - now rewrite advance_notifications.
  - now apply pollCycle_keeps.
  - destruct (checkNewEvents_extends r st) as [added [-> _]]. apply in_or_app. now left.
  - now rewrite loadStats_notifications.
  - now rewrite loadDetecciones_notifications.
  - assumption.
Qed.

Lemma run_keeps (acts : list Action) (st : State) (x : Z) :
  In x (notifications st) -> In x (notifications (run acts st)).
Proof.
  revert st. induction acts as [|a acts IH]; intros st H; [assumption|].
  simpl. apply IH. now apply act_keeps.
Qed.

(** An identifier enters the array only through a delivered event list. *)
Lemma pollCycle_origin (order : list Step) (rs : Responses) (st : State) (x : Z) :
  In x (notifications (pollCycle order rs st)) ->
  In x (notifications st) \/
  exists d, In d (delivered (Poll order rs)) /\ In x (ids d).
Proof.
  revert st. induction order as [|s order IH]; intros st H; [now left|].
  rewrite pollCycle_cons in H. apply IH in H. destruct H as [H|[d [Hd Hx]]].
  - destruct s; simpl in H.
    + rewrite loadStats_notifications in H. now left.
    + rewrite loadDetecciones_notifications in H. now left.
    + destruct (checkNewEvents_extends (r_eventos rs) st) as [added [Heq [Hadd _]]].
      rewrite Heq in H. apply in_app_or in H. destruct H as [H|H]; [now left|].
      right. destruct (Hadd x H) as [data [Hr [Hin _]]].
      exists data. split; [|assumption]. simpl. rewrite Hr. simpl. now left.
  - right. exists d. split; [|assumption]. simpl in *.
    destruct (r_eventos rs) as [| |[|] data]; try contradiction.
    destruct s; simpl; auto.
Qed.

Lemma act_origin (a : Action) (st : State) (x : Z) :
  In x (notifications (act st a)) ->
  In x (notifications st) \/ exists d, In d (delivered a) /\ In x (ids d).
Proof.
  intros H. destruct a; simpl in H.
  - rewrite advance_notifications in H. now left.
  - now apply pollCycle_origin.
  - destruct (checkNewEvents_extends r st) as [added [Heq [Hadd _]]].
    rewrite Heq in H. apply in_app_or in H. destruct H as [H|H]; [now left|].
    right. destruct (Hadd x H) as [data [-> [Hin _]]].
    exists data. split; [simpl; now left | assumption].
  - rewrite loadStats_notifications in H. now left.
  - rewrite loadDetecciones_notifications in H. now left.
  - now left.
Qed.

Lemma run_origin (acts : list Action) (st : State) (x : Z) :
  In x (notifications (run acts st)) ->
  In x (notifications st) \/
  exists a d, In a acts /\ In d (delivered a) /\ In x (ids d).
Proof.
  revert st. induction acts as [|a acts IH]; intros st H; [now left|].
  simpl in H. apply IH in H. destruct H as [H|[a' [d [Ha [Hd Hx]]]]].
  - apply act_origin in H. destruct H as [H|[d [Hd Hx]]]; [now left|].
    right. exists a, d. repeat split; try assumption. now left.
  - right. exists a', d. repeat split; try assumption. now right.
Qed.

(** With no identifier repeated inside a delivered list, none is repeated
    in the array. *)
Lemma checkNewEvents_NoDup (r : FetchOutcome (list Evento.t)) (st : State) :
  (forall data, r = Body true data -> NoDup (ids data)) ->
  NoDup (notifications st) -> NoDup (notifications (checkNewEvents r st)).
Proof.
  intros Hr Hst. destruct r as [| |[|] data]; try assumption.
  rewrite checkNewEvents_notifications, fresh_ids.
  apply NoDup_fresh_append; [assumption|]. now apply Hr.
Qed.

Lemma pollCycle_NoDup (order : list Step) (rs : Responses) (st : State) :
  (forall d, In d (delivered (Poll order rs)) -> NoDup (ids d)) ->
  NoDup (notifications st) -> NoDup (notifications (pollCycle order rs st)).
Proof.
  revert st. induction order as [|s order IH]; intros st Hd Hst; [assumption|].
  rewrite pollCycle_cons. apply IH.
  - intros d Hin. apply Hd. simpl in *.
    destruct (r_eventos rs) as [| |[|] data]; try contradiction.
    destruct s; simpl; auto.
  - destruct s; simpl.
    + now rewrite loadStats_notifications.
    + now rewrite loadDetecciones_notifications.
    + apply checkNewEvents_NoDup; [|assumption].
      intros data Hr. apply Hd. simpl. rewrite Hr. simpl. now left.
Qed.

Lemma act_NoDup (a : Action) (st : State) :
  (forall d, In d (delivered a) -> NoDup (ids d)) ->
  NoDup (notifications st) -> NoDup (notifications (act st a)).
Proof.
  intros Hd Hst. destruct a; simpl.
  - now rewrite advance_notifications.
  - now apply pollCycle_NoDup.
  - apply checkNewEvents_NoDup; [|assumption].
    intros data ->. apply Hd. simpl. now left.
  - now rewrite loadStats_notifications.
  - now rewrite loadDetecciones_notifications.
  - assumption.
Qed.

Lemma run_NoDup (acts : list Action) (st : State) :
  (forall a d, In a acts -> In d (delivered a) -> NoDup (ids d)) ->
  NoDup (notifications st) -> NoDup (notifications (run acts st)).
Proof.
  revert st. induction acts as [|a acts IH]; intros st Hd Hst; [assumption|].
  simpl. apply IH.
  - intros a' d Ha. apply Hd. now right.
  - apply act_NoDup; [|assumption]. intros d. apply Hd. now left.
Qed.

Lemma iter_markSeen_In (n : nat) (x : Z) (st : State) :
  (0 < n)%nat -> In x (notifications (Nat.iter n (markSeen x) st)).
Proof.
  destruct n as [|n]; [lia|]. intros _. simpl. apply in_or_app. right. now left.
Qed.

Lemma includes_filter (p : Z -> bool) (l : list Z) (x : Z) :
  includes (filter p l) x = p x && includes l x.
Proof.
  destruct (includes (filter p l) x) eqn:E.
  - apply includes_In, filter_In in E. destruct E as [Hin Hp].
    apply includes_In in Hin. now rewrite Hp, Hin.
  - destruct (p x) eqn:Hp; [|reflexivity]. destruct (includes l x) eqn:Hl; [|reflexivity].
    apply includes_In in Hl. assert (Hf : In x (filter p l)) by now apply filter_In.
    apply includes_In in Hf. congruence.
Qed.

(** Identifiers alerted by two successive responses, counted against the
    distinct identifiers not seen before. *)
Lemma alerts_count (seen a b : list Z) :
  NoDup a -> NoDup b ->
  (List.length (filter (fun x => negb (includes seen x)) a) +
   List.length (filter (fun x => negb (includes seen x || includes a x)) b))%nat =
  List.length (filter (fun x => negb (includes seen x)) (distinct (a ++ b))).
Proof.
  intros Ha Hb. rewrite <- length_app. unfold distinct. apply Nat.le_antisymm.
  - apply NoDup_incl_length.
    + apply NoDup_app; [now apply NoDup_filter | now apply NoDup_filter |].
      intros x H1 H2. apply filter_In in H1, H2. destruct H1 as [H1 _], H2 as [_ H2].
      apply includes_In in H1. rewrite H1, orb_true_r in H2. discriminate.
    + intros x Hx. apply filter_In. apply in_app_or in Hx.
      destruct Hx as [Hx|Hx]; apply filter_In in Hx; destruct Hx as [Hin Hp].
      * split; [|assumption]. apply nodup_In, in_or_app. now left.
      * split; [apply nodup_In, in_or_app; now right|].
        apply negb_true_iff, orb_false_iff in Hp. destruct Hp as [-> _]. reflexivity.
  - apply NoDup_incl_length; [apply NoDup_filter, NoDup_nodup|].
    intros x Hx. apply filter_In in Hx. destruct Hx as [Hin Hp].
    apply nodup_In, in_app_or in Hin. apply in_or_app.
    destruct (includes a x) eqn:E.
    + left. apply filter_In. split; [now apply includes_In | assumption].
    + right. apply filter_In. destruct Hin as [Hin|Hin].
      * apply includes_In in Hin. congruence.
      * split; [assumption|]. cbv beta in *. apply negb_true_iff in Hp.
        now rewrite Hp, E.
Qed.

Lemma filter_all {A : Type} (p : A -> bool) (l : list A) :
  (forall x, In x l -> p x = true) -> filter p l = l.
Proof.
  induction l as [|a l IH]; intros H; simpl; [reflexivity|].
  rewrite (H a (or_introl eq_refl)). f_equal. apply IH. intros x Hx. apply H. now right.
Qed.

(** C1, as the code has it. Two successive runs of [checkNewEvents], the
    second list containing every identifier of the first and neither list
    repeating an identifier: the first run presents one alert per event of
    the first list that is not in the array yet, the second one alert per
    event that is neither in the array before the first run nor in the
    first list, in the order fetched. The alerts of both runs are as many
    as the distinct identifiers of both lists that were not in the array
    before the first run. When that array is empty, as before the first
    cycle of a session, they are as many as the distinct identifiers of
    both lists, which is the length of the second list, and so is the
    count of the array afterwards. *)
Theorem two_cycles_one_alert_per_id :
  forall (st : State) (E1 E2 : list Evento.t) (t : Z),
    NoDup (ids E1) ->
    NoDup (ids E2) ->
    incl (ids E1) (ids E2) ->
    let s1 := checkNewEvents (Body true E1) st in
    let s2 := checkNewEvents (Body true E2) (advance t s1) in
    let unseen := fun x => negb (includes (notifications st) x) in
    let early := filter (fun e => unseen (Evento.id e)) E1 in
    let late := filter (fun e => negb (includes (notifications st) (Evento.id e)
                                       || includes (ids E1) (Evento.id e))) E2 in
    shown s1 = (shown st ++ map alert_of early)%list /\
    shown s2 = (shown s1 ++ map alert_of late)%list /\
    List.length (shown s2) =
      (List.length (shown st) +
       List.length (filter unseen (distinct (ids E1 ++ ids E2))))%nat /\
    (notifications st = [] ->
       List.length (shown s2) =
         (List.length (shown st) + List.length (distinct (ids E1 ++ ids E2)))%nat /\
       List.length (distinct (ids E1 ++ ids E2)) = List.length E2 /\
       count s2 = Z.of_nat (List.length (distinct (ids E1 ++ ids E2)))).
Proof.
  intros st E1 E2 t H1 H2 Hincl s1 s2 unseen early late.
  assert (Hs1 : shown s1 = (shown st ++ map alert_of early)%list).
  { unfold s1. now rewrite checkNewEvents_shown. }
  assert (Hn1 : notifications s1 = (notifications st ++ ids early)%list).
  { unfold s1. now rewrite checkNewEvents_notifications. }
  assert (Hfresh : fresh_events (advance t s1) E2 = late).
  { unfold fresh_events, isNew, late. rewrite advance_notifications, Hn1.
    apply filter_ext. intros e. rewrite includes_app. unfold early.
    rewrite (ids_filter unseen), includes_filter. unfold unseen.
    now destruct (includes (notifications st) (Evento.id e)). }
  assert (Hs2 : shown s2 = (shown s1 ++ map alert_of late)%list).
  { unfold s2. rewrite checkNewEvents_shown, advance_shown. now rewrite Hfresh. }
  assert (Hn2 : notifications s2 = (notifications st ++ ids early ++ ids late)%list).
  { unfold s2. rewrite checkNewEvents_notifications, advance_notifications.
    now rewrite Hfresh, Hn1, <- app_assoc. }
  assert (Hcount : (List.length early + List.length late)%nat =
                   List.length (filter unseen (distinct (ids E1 ++ ids E2)))).
  { unfold unseen. rewrite <- (alerts_count (notifications st) (ids E1) (ids E2) H1 H2).
    unfold early, late, unseen.
    rewrite <- (ids_filter (fun x => negb (includes (notifications st) x)) E1).
    rewrite <- (ids_filter (fun x => negb (includes (notifications st) x
                                          || includes (ids E1) x)) E2).
    unfold ids. now rewrite !length_map. }
  assert (Halerts : List.length (shown s2) =
                    (List.length (shown st) +
                     List.length (filter unseen (distinct (ids E1 ++ ids E2))))%nat).
  { rewrite Hs2, Hs1, !length_app, !length_map, <- Hcount. lia. }
  split; [exact Hs1|]. split; [exact Hs2|]. split; [exact Halerts|].
  intros Hempty.
  assert (Hall : filter unseen (distinct (ids E1 ++ ids E2)) = distinct (ids E1 ++ ids E2)).
  { apply filter_all. intros x _. unfold unseen. now rewrite Hempty. }
  rewrite Hall in *. split; [exact Halerts|]. split.
  - rewrite (distinct_superset _ _ H2 Hincl). unfold ids. apply length_map.
  - unfold count. rewrite Hn2, Hempty, <- Hcount, !length_app. unfold ids.
    now rewrite !length_map.
Qed.

(** The scenario of C1: the first cycle of a session fetches event 1, the
    second, thirty seconds later, events 1 and 2. *)
Lemma two_cycles_scenario :
  let s1 := checkNewEvents (Body true [ev1]) initial_state in
  let s2 := checkNewEvents (Body true [ev1; ev2]) (advance REFRESH_MS s1) in
  shown s1 = [alert_of ev1] /\
  shown s2 = [alert_of ev1; alert_of ev2] /\
  List.length (shown s2) = 2%nat /\
  List.length (distinct (ids [ev1] ++ ids [ev1; ev2])) = 2%nat /\
  count s2 = 2.
Proof.
  intros s1 s2.
  destruct (two_cycles_one_alert_per_id initial_state [ev1] [ev1; ev2] REFRESH_MS)
    as [H1 [H2 [_ H4]]].
  - concrete_NoDup.
  - concrete_NoDup.
  - intros x Hx. simpl in *. intuition.
  - destruct (H4 eq_refl) as [H5 [H6 H7]].
    split; [exact H1|]. split; [exact H2|]. split; [exact H5|].
    split; [exact H6 | exact H7].
Defined.

(** C1 as worded fails in two ways. Later in a session: when three cycles
    in a row fetch the same pending event, the second and third present no
    alert at all, for one distinct identifier. Inside one response: the
    filter on line 38 tests every element against the array before any
    identifier of that response is pushed, so two copies of an event both
    pass and both are alerted. *)
Lemma alerts_differ_from_distinct_ids :
  let s1 := checkNewEvents (Body true [ev1]) initial_state in
  let s2 := checkNewEvents (Body true [ev1]) (advance REFRESH_MS s1) in
  let s3 := checkNewEvents (Body true [ev1]) (advance (2 * REFRESH_MS) s2) in
  let d1 := checkNewEvents (Body true [ev1; ev1]) initial_state in
  let d2 := checkNewEvents (Body true [ev1; ev1]) (advance REFRESH_MS d1) in
  incl (ids [ev1]) (ids [ev1]) /\
  shown s3 = shown s1 /\
  List.length (distinct (ids [ev1] ++ ids [ev1])) = 1%nat /\
  incl (ids [ev1; ev1]) (ids [ev1; ev1]) /\
  shown d2 = [alert_of ev1; alert_of ev1] /\
  List.length (distinct (ids [ev1; ev1] ++ ids [ev1; ev1])) = 1%nat.
Proof.
  split; [apply incl_refl|]. split; [now vm_compute|]. split; [now vm_compute|].
  split; [apply incl_refl|]. now vm_compute.
Qed.









(** A response that carries one event twice falls outside the data model
    (one identifier, one event). There the filter on line 38 has tested
    both copies before the first push, so both are pushed. *)
Lemma repeated_id_pushed_twice :
  let s := checkNewEvents (Body true [ev1; ev1]) initial_state in
  notifications s = [1; 1] /\
  count s = 2 /\
  notificationCount s = "2".
Proof. now vm_compute. Qed.

(** C9. An identifier no delivered list has carried is new, from the first
    instant of the session on; once pushed, any positive number of times, or
    delivered in a response, it is not new after any further actions of
    the session; and a run of [checkNewEvents] that only tests identifiers
    and finds none new leaves the whole state, the array included, as it
    was. *)
Theorem isNew_until_marked :
  forall (x : Z) (st : State) (acts : list Action),
    isNew x initial_state = true /\
    ((forall a d, In a acts -> In d (delivered a) -> ~ In x (ids d)) ->
       isNew x (run acts initial_state) = true) /\
    (forall n : nat, (0 < n)%nat ->
       isNew x (Nat.iter n (markSeen x) st) = false /\
       isNew x (run acts (Nat.iter n (markSeen x) st)) = false) /\
    (forall data, In x (ids data) ->
       isNew x (run acts (checkNewEvents (Body true data) st)) = false) /\
    (forall data, (forall e, In e data -> isNew (Evento.id e) st = false) ->
       checkNewEvents (Body true data) st = st).
Proof.
  intros x st acts. split; [reflexivity|]. split; [|split; [|split]].
  - intros Hnone. unfold isNew.
    destruct (includes (notifications (run acts initial_state)) x) eqn:E; [|reflexivity].
    apply includes_In in E. apply run_origin in E.
    destruct E as [E|[a [d [Ha [Hd Hx]]]]]; [contradiction|].
    exfalso. exact (Hnone a d Ha Hd Hx).
  - intros n Hn. unfold isNew. split.
    + assert (H := iter_markSeen_In n x st Hn).
      apply includes_In in H. now rewrite H.
    + assert (H := run_keeps acts _ x (iter_markSeen_In n x st Hn)).
      apply includes_In in H. now rewrite H.
  - intros data Hx. unfold isNew.
    destruct (checkNewEvents_extends (Body true data) st) as [added [Heq [_ Hall]]].
    assert (H : In x (notifications (checkNewEvents (Body true data) st))).
    { rewrite Heq. now apply (Hall data). }
    apply (run_keeps acts) in H. apply includes_In in H. now rewrite H.
  - intros data H. now apply checkNewEvents_none_new.
Qed.

Lemma isNew_until_marked_witness :
  isNew 2 (run [EventsArrive (Body true [ev1]); Toggle] initial_state) = true /\
  isNew 1 (run [Tick REFRESH_MS] (Nat.iter 3 (markSeen 1) initial_state)) = false /\
  isNew 1 (run [Toggle] (checkNewEvents (Body true [ev1]) initial_state)) = false.
Proof.
  split; [|split].
  - destruct (isNew_until_marked 2 initial_state [EventsArrive (Body true [ev1]); Toggle])
      as [_ [H _]].
    apply H. intros a d Ha Hd Hx. simpl in Ha. destruct Ha as [<-|[<-|[]]]; simpl in Hd.
    + destruct Hd as [<-|[]]. simpl in Hx. destruct Hx as [Hx|[]]. discriminate.
    + contradiction.
  - destruct (isNew_until_marked 1 initial_state [Tick REFRESH_MS]) as [_ [_ [H _]]].
    apply (H 3%nat). lia.
  - destruct (isNew_until_marked 1 initial_state [Toggle]) as [_ [_ [_ [H _]]]].
    apply H. simpl. now left.
Defined.

(* ------------------------------------------------------------------ *)
(** ** The toast slot and its timers *)
(* ------------------------------------------------------------------ *)

Lemma filter_none {A : Type} (p : A -> bool) (l : list A) :
  (forall x, In x l -> p x = false) -> filter p l = [].
Proof.
  induction l as [|a l IH]; intros H; simpl; [reflexivity|].
  rewrite (H a (or_introl eq_refl)). apply IH. intros x Hx. apply H. now right.
Qed.

Lemma fold_remove_active_text {A : Type} (l : list A) (st : State) :
  toastTitle (toast (fold_left (fun s _ => remove_active s) l st)) = toastTitle (toast st) /\
  toastMessage (toast (fold_left (fun s _ => remove_active s) l st)) = toastMessage (toast st).
Proof.
  revert st. induction l as [|a l IH]; intros st; simpl; [now split|].
  destruct (IH (remove_active st)) as [-> ->]. now split.
Qed.

Lemma visible_remove_active (st : State) : visible (remove_active st) = false.
Proof.
  unfold visible, remove_active. cbn [toast classList set_toast].
  induction (classList (toast st)) as [|c l IH]; [reflexivity|].
  cbn [filter]. destruct (String.eqb c "active") eqn:E; cbn [negb]; [assumption|].
  cbn [existsb]. rewrite String.eqb_sym, E. assumption.
Qed.

Lemma fold_remove_active_hidden {A : Type} (l : list A) (st : State) :
  l <> [] -> visible (fold_left (fun s _ => remove_active s) l st) = false.
Proof.
  intros Hl. destruct l as [|a l]; [congruence|]. simpl. clear Hl.
  assert (H : visible (remove_active st) = false) by apply visible_remove_active.
  revert H. generalize (remove_active st). induction l as [|b l IH]; intros s H; simpl.
  - assumption.
  - apply IH. apply visible_remove_active.
Qed.

(** Reaching a time at which no callback is due leaves the toast alone. *)
Lemma advance_nothing_due (t : Z) (st : State) :
  (forall d, In d (timers st) -> t < d) -> toast (advance t st) = toast st.
Proof.
  intros H. unfold advance. rewrite (filter_none (fun d => d <=? t)).
  - reflexivity.
  - intros d Hd. apply Z.leb_gt. now apply H.
Qed.

(** Reaching a time at which some callback is due hides the toast. *)
Lemma advance_some_due (t d : Z) (st : State) :
  In d (timers st) -> d <= t -> visible (advance t st) = false.
Proof.
  intros Hd Hle. unfold advance. apply fold_remove_active_hidden.
  intros E. assert (Hin : In d (filter (fun d0 => d0 <=? t) (timers st))).
  { apply filter_In. split; [assumption|]. now apply Z.leb_le. }
  rewrite E in Hin. contradiction.
Qed.

Lemma advance_text (t : Z) (st : State) :
  toastTitle (toast (advance t st)) = toastTitle (toast st) /\
  toastMessage (toast (advance t st)) = toastMessage (toast st).
Proof.
  unfold advance.
  match goal with
  | |- context [fold_left _ ?l ?s] => destruct (fold_remove_active_text l s) as [-> ->]
  end.
  now split.
Qed.

Lemma fold_remove_active_timers {A : Type} (l : list A) (st : State) :
  timers (fold_left (fun s _ => remove_active s) l st) = timers st /\
  clock (fold_left (fun s _ => remove_active s) l st) = clock st.
Proof.
  revert st. induction l as [|a l IH]; intros st; simpl; [now split|].
  destruct (IH (remove_active st)) as [-> ->]. now split.
Qed.

Lemma advance_timers (t : Z) (st : State) :
  timers (advance t st) = filter (fun d => negb (d <=? t)) (timers st).
Proof.
  unfold advance.
  match goal with
  | |- context [fold_left _ ?l ?s] => destruct (fold_remove_active_timers l s) as [-> _]
  end.
  reflexivity.
Qed.

Lemma advance_clock (t : Z) (st : State) :
  clock (advance t st) = Z.max (clock st) t.
Proof.
  unfold advance.
  match goal with
  | |- context [fold_left _ ?l ?s] => destruct (fold_remove_active_timers l s) as [_ ->]
  end.
  reflexivity.
Qed.

Lemma showNotification_timers (ttl msg : string) (ty : ToastType) (st : State) :
  timers (showNotification ttl msg ty st) = (timers st ++ [clock st + DISPLAY_MS])%list.
Proof. reflexivity. Qed.

Lemma showNotification_visible (ttl msg : string) (ty : ToastType) (st : State) :
  visible (showNotification ttl msg ty st) = true.
Proof. destruct ty; reflexivity. Qed.

(** C3, as the code has it. Two calls of [showNotification], the second
    less than the display time after the first, on a page with no dismissal
    pending: the slot holds the second request's title, message and type
    from the second call on; both dismissals stay scheduled, each five
    seconds after its own call; the toast is visible until five seconds
    after the FIRST call and hidden from then on, the text of the second
    request remaining in the hidden slot. *)
Theorem second_toast_replaces_first :
  forall (st : State) (A B : NotificationRequest) (tA d : Z),
    timers st = [] ->
    clock st <= tA ->
    0 <= d < DISPLAY_MS ->
    let sA := showNotification (title A) (message A) (kind A) (advance tA st) in
    let sB := showNotification (title B) (message B) (kind B) (advance (tA + d) sA) in
    toast sB = mkToast ["toast"; type_name (kind B); "active"] (title B) (message B) /\
    timers sB = [tA + DISPLAY_MS; tA + d + DISPLAY_MS] /\
    (forall t, tA + d <= t < tA + DISPLAY_MS ->
       toast (advance t sB) = toast sB /\ visible (advance t sB) = true) /\
    (forall t, tA + DISPLAY_MS <= t ->
       visible (advance t sB) = false /\
       toastTitle (toast (advance t sB)) = title B /\
       toastMessage (toast (advance t sB)) = message B).
Proof.
  intros st A B tA d Hnone Hclock Hd sA sB.
  assert (HtA : timers sA = [tA + DISPLAY_MS]).
  { unfold sA. rewrite showNotification_timers, advance_timers, advance_clock, Hnone.
    simpl. f_equal. lia. }
  assert (HcA : clock sA = tA).
  { unfold sA. unfold showNotification, setTimeout. simpl. rewrite advance_clock. lia. }
  assert (HtB : timers sB = [tA + DISPLAY_MS; tA + d + DISPLAY_MS]).
  { unfold sB. rewrite showNotification_timers, advance_timers, advance_clock, HtA, HcA.
    simpl. replace (tA + DISPLAY_MS <=? tA + d) with false by (symmetry; apply Z.leb_gt; lia).
    simpl. do 2 f_equal. lia. }
  split; [reflexivity|]. split; [exact HtB|]. split.
  - intros t Ht.
    assert (Hsame : toast (advance t sB) = toast sB).
    { apply advance_nothing_due. rewrite HtB. intros x [<-|[<-|[]]]; lia. }
    split; [exact Hsame|]. unfold visible. rewrite Hsame.
    apply (showNotification_visible (title B) (message B) (kind B) (advance (tA + d) sA)).
  - intros t Ht. split.
    + apply (advance_some_due t (tA + DISPLAY_MS)); [|assumption].
      rewrite HtB. now left.
    + destruct (advance_text t sB) as [-> ->]. now split.
Qed.

Lemma second_toast_replaces_first_witness :
  let sA := showNotification "Generando" "Creando reporte PDF..." success (advance 1000 initial_state) in
  let sB := showNotification NUEVO_EVENTO "intruso_detectado: Rostro desconocido" error
              (advance (1000 + 2000) sA) in
  toast sB = mkToast ["toast"; "error"; "active"] NUEVO_EVENTO "intruso_detectado: Rostro desconocido" /\
  timers sB = [6000; 8000] /\
  visible (advance 5999 sB) = true /\
  visible (advance 6000 sB) = false.
Proof.
  intros sA sB.
  destruct (second_toast_replaces_first initial_state
              (mkRequest "Generando" "Creando reporte PDF..." success)
              (mkRequest NUEVO_EVENTO "intruso_detectado: Rostro desconocido" error)
              1000 2000 eq_refl) as [H1 [H2 [H3 H4]]].
  - simpl. lia.
  - unfold DISPLAY_MS. lia.
  - split; [exact H1|]. split; [exact H2|]. split.
    + apply (H3 5999). unfold DISPLAY_MS. lia.
    + apply (H4 6000). unfold DISPLAY_MS. lia.
Defined.

(** C3 as worded fails: the first call's timer is never cancelled, so the
    second toast, shown at 3000 ms, is hidden at 5000 ms, five seconds
    after the first call and two seconds after its own. *)
Lemma second_toast_cut_short :
  let sA := showNotification "A" "first" success (advance 0 initial_state) in
  let sB := showNotification "B" "second" error (advance 3000 sA) in
  toastTitle (toast sB) = "B" /\
  visible (advance 4999 sB) = true /\
  visible (advance 5000 sB) = false /\
  5000 < 3000 + DISPLAY_MS.
Proof. now vm_compute. Qed.

(* ------------------------------------------------------------------ *)
(** ** Failed fetches in a refresh *)
(* ------------------------------------------------------------------ *)

Lemma last_toast_cons (e : Evento.t) (es : list Evento.t) (t0 : Toast) :
  last_toast (e :: es) t0 =
  last_toast es (mkToast ["toast"; type_name error; "active"] NUEVO_EVENTO
                         (Evento.tipo e ++ ": " ++ Evento.descripcion e)).
Proof. reflexivity. Qed.

(** The state after the [forEach] of [checkNewEvents], in closed form. *)
Lemma forEach_closed (es : list Evento.t) (st : State) :
  fold_left notify_event es st =
  mkState (notifications st ++ ids es) (last_toast es (toast st))
          (notificationCount st) (statPersonas st) (statDetecciones st)
          (statDesconocidos st) (statEventos st) (deteccionesList st)
          (timers st ++ map (fun _ => clock st + DISPLAY_MS) es)
          (intervals st) (clock st) (console st)
          (shown st ++ map alert_of es).
Proof.
  revert st. induction es as [|e es IH]; intros st.
  - simpl. rewrite !app_nil_r. now destruct st.
  - cbn [fold_left]. rewrite IH, last_toast_cons. cbn. unfold push.
    rewrite <- !app_assoc. reflexivity.
Qed.

Lemma checkNewEvents_failed (r : FetchOutcome (list Evento.t)) (st : State) :
  failed r = true ->
  checkNewEvents r st =
  if thrown r then console_error "Error verificando eventos:" st else st.
Proof. destruct r as [| |[|] d]; simpl; intros H; congruence. Qed.

Lemma loadStats_failed (r : FetchOutcome Stats) (st : State) :
  failed r = true ->
  loadStats r st =
  if thrown r then console_error "Error cargando estadísticas:" st else st.
Proof. destruct r as [| |[|] d]; simpl; intros H; congruence. Qed.

Lemma loadDetecciones_failed (r : FetchOutcome (list Deteccion.t)) (st : State) :
  failed r = true ->
  loadDetecciones r st =
  if thrown r then console_error "Error cargando detecciones:" st
  else set_deteccionesList NoRecientes st.
Proof. destruct r as [| |[|] d]; simpl; intros H; congruence. Qed.

(** A failed step writes nothing but what [mask] blanks. *)
Lemma failed_step_masked (rs : Responses) (s : Step) (st : State) :
  failed_step rs s = true -> mask s (complete rs st s) = mask s st.
Proof.
  intros H. destruct s; simpl in H; cbn [complete].
  - rewrite (loadStats_failed _ _ H). now destruct (thrown _).
  - rewrite (loadDetecciones_failed _ _ H). now destruct (thrown _).
  - rewrite (checkNewEvents_failed _ _ H). now destruct (thrown _).
Qed.

(** No handler reads what [mask] blanks. *)
Lemma complete_mask (rs : Responses) (s s' : Step) (st : State) :
  mask s (complete rs (mask s st) s') = mask s (complete rs st s').
Proof.
  destruct s'; cbn [complete].
  - destruct (r_stats rs) as [| |[|] d]; destruct s; reflexivity.
  - destruct (r_detecciones rs) as [| |ok ds]; try (destruct s; reflexivity).
    unfold loadDetecciones. destruct (ok && _); destruct s; reflexivity.
  - destruct (r_eventos rs) as [| |[|] data]; try (destruct s; reflexivity).
    unfold checkNewEvents.
    replace (filter (fun e => isNew (Evento.id e) (mask s st)) data)
      with (filter (fun e => isNew (Evento.id e) st) data)
      by (destruct s; reflexivity).
    destruct (0 <? _); [|destruct s; reflexivity].
    rewrite !forEach_closed. destruct s; reflexivity.
Qed.

Lemma pollCycle_mask (order : list Step) (rs : Responses) (s : Step) (st : State) :
  mask s (pollCycle order rs (mask s st)) = mask s (pollCycle order rs st).
Proof.
  revert st. induction order as [|s' order IH]; intros st.
  - simpl. destruct s; reflexivity.
  - rewrite !pollCycle_cons.
    rewrite <- (IH (complete rs (mask s st) s')), complete_mask. apply IH.
Qed.

Lemma failed_step_dropped (order : list Step) (rs : Responses) (s : Step) (st : State) :
  failed_step rs s = true ->
  mask s (pollCycle order rs st) = mask s (pollCycle (without s order) rs st).
Proof.
  intros H. revert st. induction order as [|s' order IH]; intros st; [reflexivity|].
  rewrite pollCycle_cons. unfold without. cbn [filter]. fold (without s order).
  destruct (same_step s s') eqn:E; cbn [negb].
  - assert (s' = s) as -> by (destruct s, s'; simpl in E; congruence).
    rewrite <- pollCycle_mask, (failed_step_masked _ _ _ H), pollCycle_mask. apply IH.
  - rewrite pollCycle_cons. apply IH.
Qed.

(** Nothing in a refresh touches the registered interval. *)
Lemma complete_intervals (rs : Responses) (s : Step) (st : State) :
  intervals (complete rs st s) = intervals st.
Proof.
  destruct s; cbn [complete].
  - destruct (r_stats rs) as [| |[|] d]; reflexivity.
  - destruct (r_detecciones rs) as [| |ok ds]; try reflexivity.
    unfold loadDetecciones. now destruct (ok && _).
  - destruct (r_eventos rs) as [| |[|] data]; try reflexivity.
    unfold checkNewEvents. destruct (0 <? _); [|reflexivity].
    cbn. apply forEach_intervals.
Qed.

Lemma pollCycle_intervals (order : list Step) (rs : Responses) (st : State) :
  intervals (pollCycle order rs st) = intervals st.
Proof.
  revert st. induction order as [|s order IH]; intros st; [reflexivity|].
  rewrite pollCycle_cons, IH. apply complete_intervals.
Qed.

(** C4, as the code has it. In a refresh, a fetch or parse that throws is
    logged under the handler's label and changes nothing else; a body with
    [success: false] is NOT logged: [checkNewEvents] and [loadStats] do
    nothing at all on it, [loadDetecciones] shows its placeholder. In all
    three cases the failed step leaves the seen array, the alerts shown,
    the toast and its timers as they were, the registered interval stays
    registered, and the rest of the page comes out as if the failed step
    had not been part of the refresh, whatever the order of completion. *)
Theorem failed_fetch_contained :
  forall (st : State) (order : list Step) (rs : Responses),
    (forall r, failed r = true ->
       checkNewEvents r st =
       if thrown r then console_error "Error verificando eventos:" st else st) /\
    (forall r, failed r = true ->
       loadStats r st =
       if thrown r then console_error "Error cargando estadísticas:" st else st) /\
    (forall r, failed r = true ->
       loadDetecciones r st =
       if thrown r then console_error "Error cargando detecciones:" st
       else set_deteccionesList NoRecientes st) /\
    (forall s, failed_step rs s = true ->
       notifications (complete rs st s) = notifications st /\
       shown (complete rs st s) = shown st /\
       toast (complete rs st s) = toast st /\
       timers (complete rs st s) = timers st /\
       intervals (complete rs st s) = intervals st) /\
    (forall s, failed_step rs s = true ->
       mask s (pollCycle order rs st) = mask s (pollCycle (without s order) rs st)) /\
    intervals (pollCycle order rs (init st)) = (intervals st ++ [REFRESH_MS])%list.
Proof.
  intros st order rs.
  split; [intros r; apply checkNewEvents_failed|].
  split; [intros r; apply loadStats_failed|].
  split; [intros r; apply loadDetecciones_failed|].
  split; [|split].
  - intros s H. destruct s; simpl in H; cbn [complete].
    + rewrite (loadStats_failed _ _ H). now destruct (thrown _).
    + rewrite (loadDetecciones_failed _ _ H). now destruct (thrown _).
    + rewrite (checkNewEvents_failed _ _ H). now destruct (thrown _).
  - intros s. apply failed_step_dropped.
  - now rewrite pollCycle_intervals.
Qed.

Lemma failed_fetch_contained_witness :
  let after := pollCycle issue_order outage (init initial_state) in
  checkNewEvents NetworkError initial_state =
    console_error "Error verificando eventos:" initial_state /\
  notifications after = [] /\
  shown after = [] /\
  mask StepEventos after =
    mask StepEventos (pollCycle [StepStats; StepDetecciones] outage (init initial_state)) /\
  intervals after = [REFRESH_MS].
Proof.
  intros after.
  destruct (failed_fetch_contained (init initial_state) issue_order outage)
    as [_ [_ [_ [_ [Hdrop _]]]]].
  destruct (failed_fetch_contained initial_state issue_order outage)
    as [Hev [_ [_ [_ [_ Hkept]]]]].
  split; [exact (Hev NetworkError eq_refl)|].
  split; [reflexivity|]. split; [reflexivity|].
  split; [exact (Hdrop StepEventos eq_refl) | exact Hkept].
Defined.

(** C4 as worded fails on a body with [success: false]: no handler of the
    refresh has an [else] branch that logs, so the console stays empty. *)
Lemma unsuccessful_response_not_logged :
  failed (Body false [ev1]) = true /\
  console (checkNewEvents (Body false [ev1]) initial_state) = [] /\
  console (loadStats (Body false stats0) initial_state) = [] /\
  console (loadDetecciones (Body false []) initial_state) = [] /\
  console (pollCycle issue_order
             (mkResponses (Body false stats0) (Body false []) (Body false [ev1]))
             initial_state) = [].
Proof. now vm_compute. Qed.

(* ------------------------------------------------------------------ *)
(** ** Strings *)
(* ------------------------------------------------------------------ *)

Lemma str_app_assoc (a b c : string) : ((a ++ b) ++ c = a ++ (b ++ c))%string.
Proof. induction a as [|x a IH]; simpl; [reflexivity|]. now rewrite IH. Qed.

Lemma str_app_nil_r (a : string) : (a ++ "" = a)%string.
Proof. induction a as [|x a IH]; simpl; [reflexivity|]. now rewrite IH. Qed.

Lemma str_app_length (a b : string) :
  String.length (a ++ b) = (String.length a + String.length b)%nat.
Proof. induction a as [|x a IH]; simpl; [reflexivity|]. now rewrite IH. Qed.

Lemma has_char_app (c : ascii) (a b : string) :
  has_char c (a ++ b) = has_char c a || has_char c b.
Proof.
  induction a as [|x a IH]; simpl; [reflexivity|]. now rewrite IH, orb_assoc.
Qed.

Lemma has_char_join (c : ascii) (sep : string) (xs : list string) :
  has_char c sep = false ->
  (forall x, In x xs -> has_char c x = false) ->
  has_char c (join sep xs) = false.
Proof.
  intros Hsep. induction xs as [|x xs IH]; intros H; [reflexivity|].
  destruct xs as [|y xs].
  - simpl. apply H. now left.
  - change (join sep (x :: y :: xs)) with (x ++ sep ++ join sep (y :: xs))%string.
    rewrite !has_char_app, Hsep, (H x (or_introl eq_refl)). simpl.
    apply IH. intros z Hz. apply H. now right.
Qed.

Lemma split_on_plain (c : ascii) (s : string) :
  has_char c s = false -> split_on c s = [s].
Proof.
  induction s as [|a s IH]; simpl; [reflexivity|]. intros H.
  apply orb_false_iff in H. destruct H as [Ha Hs]. now rewrite Ha, (IH Hs).
Qed.

Lemma split_on_app (c : ascii) (a rest : string) :
  has_char c a = false ->
  split_on c (a ++ String c rest) = a :: split_on c rest.
Proof.
  induction a as [|x a IH]; simpl; intros H.
  - now rewrite Ascii.eqb_refl.
  - apply orb_false_iff in H. destruct H as [Hx Ha]. now rewrite Hx, (IH Ha).
Qed.

(** Splitting a joined list gives the list back when no element holds the
    separator. *)
Lemma split_on_join (c : ascii) (x : string) (xs : list string) :
  (forall y, In y (x :: xs) -> has_char c y = false) ->
  split_on c (join (str1 c) (x :: xs)) = x :: xs.
Proof.
  revert x. induction xs as [|y xs IH]; intros x H.
  - simpl. apply split_on_plain. apply H. now left.
  - change (join (str1 c) (x :: y :: xs)) with (x ++ String c (join (str1 c) (y :: xs)))%string.
    rewrite split_on_app by (apply H; now left).
    f_equal. apply IH. intros z Hz. apply H. now right.
Qed.

(* ------------------------------------------------------------------ *)
(** ** Report generators *)
(* ------------------------------------------------------------------ *)

(** C6. For a non-empty array of records, [generateCSV] returns the keys of
    the first record joined by commas, a line feed, and the records' lines
    joined by line feeds, one line per record, each line being the texts of
    that record's values joined by commas exactly as [join] renders them,
    with nothing quoted or escaped. When no key and no value text holds a
    line feed, splitting the result at line feeds gives back exactly the
    header followed by those lines; when no value text of a record holds a
    comma, splitting its line at commas gives back the value texts. *)
Theorem generateCSV_layout :
  forall (JsValue : Type) (join_text : JsValue -> string)
         (first : JsObject JsValue) (rest : list (JsObject JsValue)),
    let data := first :: rest in
    let header := join "," (Object_keys JsValue first) in
    let rows := map (fun item => join "," (map join_text (Object_values JsValue item))) data in
    generateCSV JsValue join_text (Some data) = (header ++ NL ++ join NL rows)%string /\
    List.length rows = List.length data /\
    ((forall k, In k (Object_keys JsValue first) -> has_char LF k = false) ->
     (forall item v, In item data -> In v (Object_values JsValue item) ->
        has_char LF (join_text v) = false) ->
     lines (generateCSV JsValue join_text (Some data)) = header :: rows) /\
    (forall item v0 vs, In item data -> Object_values JsValue item = v0 :: vs ->
       (forall v, In v (v0 :: vs) -> has_char comma (join_text v) = false) ->
       split_on comma (csv_line JsValue join_text item) = map join_text (v0 :: vs)).
Proof.
  intros JsValue join_text first rest data header rows.
  split; [reflexivity|]. split; [apply length_map|]. split.
  - intros Hk Hv. unfold lines.
    change (generateCSV JsValue join_text (Some data))
      with (header ++ String LF (join (str1 LF) rows))%string.
    rewrite split_on_app.
    + f_equal. unfold rows, data. cbn [map]. apply split_on_join.
      intros y Hy.
      change (In y (map (fun item => join "," (map join_text (Object_values JsValue item)))
                        (first :: rest))) in Hy.
      apply in_map_iff in Hy. destruct Hy as [item [<- Hitem]].
      apply has_char_join; [reflexivity|].
      intros x Hx. apply in_map_iff in Hx. destruct Hx as [v [<- Hvin]].
      now apply (Hv item v).
    + apply has_char_join; [reflexivity|]. exact Hk.
  - intros item v0 vs _ Hvals Hplain. unfold csv_line. rewrite Hvals. cbn [map].
    apply (split_on_join comma). intros y Hy.
    change (In y (map join_text (v0 :: vs))) in Hy.
    apply in_map_iff in Hy. destruct Hy as [v [<- Hvin]]. now apply Hplain.
Qed.

Lemma generateCSV_layout_witness :
  let first := [("id", SInt 7); ("tipo", SStr "intruso"); ("nota", SNull)] in
  let second := [("id", SInt 8); ("tipo", SStr "ronda, turno 2"); ("nota", SBool true)] in
  generateCSV Scalar scalar_text (Some [first; second]) =
    ("id,tipo,nota" ++ NL ++ "7,intruso," ++ NL ++ "8,ronda, turno 2,true")%string /\
  lines (generateCSV Scalar scalar_text (Some [first; second])) =
    ["id,tipo,nota"; "7,intruso,"; "8,ronda, turno 2,true"] /\
  split_on comma (csv_line Scalar scalar_text first) = ["7"; "intruso"; ""].
Proof.
  intros first second.
  destruct (generateCSV_layout Scalar scalar_text first [second]) as [H1 [_ [H3 H4]]].
  split; [exact H1|]. split.
  - apply H3.
    + intros k Hk. simpl in Hk. destruct Hk as [<-|[<-|[<-|[]]]]; reflexivity.
    + intros item v Hi Hv. simpl in Hi. destruct Hi as [<-|[<-|[]]]; simpl in Hv;
        destruct Hv as [<-|[<-|[<-|[]]]]; reflexivity.
  - apply (H4 first (SInt 7) [SStr "intruso"; SNull]).
    + now left.
    + reflexivity.
    + intros v Hv. simpl in Hv. destruct Hv as [<-|[<-|[<-|[]]]]; reflexivity.
Defined.


(** The digits [toFixed] prints are those of the integer nearest to
    [x * 10^f], the larger one when two are equally near. *)
Lemma nearest_scaled_nearest (m : positive) (e : Z) (f : nat) :
  e < 0 ->
  let q := 2 ^ (- e) in
  let num := Z.pos m * 10 ^ Z.of_nat f in
  let n := nearest_scaled m e f in
  2 * q * n - q <= 2 * num < 2 * q * n + q.
Proof.
  intros He q num n. unfold n, nearest_scaled. fold num.
  replace (0 <=? e) with false by (symmetry; apply Z.leb_gt; lia).
  replace (2 ^ (- e + 1)) with (2 * q) by (unfold q; rewrite Z.pow_add_r; lia).
  assert (Hq : 0 < q) by (unfold q; apply Z.pow_pos_nonneg; lia).
  fold q.
  pose proof (Z.div_mod (2 * num + q) (2 * q) ltac:(lia)) as Hdm.
  pose proof (Z.mod_pos_bound (2 * num + q) (2 * q) ltac:(lia)) as Hmod.
  lia.
Qed.

(** C8. For the single detection of Ana Lopez, known, confidence 0.873,
    [generatePDFContent] returns the heading for one detection followed by
    one block: ordinal 1, the name "Ana Lopez", the timestamp, the state
    CONOCIDO and the confidence 87.3%. The confidence printed is the
    binary64 product 0.873 * 100, which lies between 87.25 and 87.35,
    rendered by [toFixed(1)]. *)
Theorem ana_lopez_block :
  forall (Number_toString : float -> string) (generado : string),
    Prim2SF (Deteccion.confianza ana * 100)%float =
      S754_finite false 6143191366710067 (-46) /\
    8725 * 2 ^ 46 <= 6143191366710067 * 100 < 8735 * 2 ^ 46 /\
    toFixed Number_toString (Deteccion.confianza ana * 100)%float 1 = "87.3" /\
    generatePDFContent Number_toString generado [ana] =
      ("=== REPORTE DE DETECCIONES ===" ++ NL ++ NL ++
       "Generado: " ++ generado ++ NL ++
       "Total de detecciones: 1" ++ NL ++ NL ++
       repeat_str RULE_CHAR 70 ++ NL ++ NL ++
       "1. Ana Lopez" ++ NL ++
       "   Fecha: 2024-01-01T10:00:00Z" ++ NL ++
       "   Estado: CONOCIDO" ++ NL ++
       "   Confianza: 87.3%" ++ NL ++
       NL)%string.
Proof.
  intros Number_toString generado.
  assert (Hfix : toFixed Number_toString (Deteccion.confianza ana * 100)%float 1 = "87.3")
    by (vm_compute; reflexivity).
  split; [vm_compute; reflexivity|].
  split; [split; [apply Z.leb_le | apply Z.ltb_lt]; vm_compute; reflexivity|].
  split; [exact Hfix|].
  unfold generatePDFContent. cbn [forEach_idx List.length]. unfold append_deteccion.
  rewrite Hfix. cbn [Deteccion.nombre Deteccion.apellido Deteccion.es_desconocido
                     Deteccion.timestamp ana or_empty].
  change (Number_toString_int (Z.of_nat 1)) with "1".
  change (Number_toString_int (Z.of_nat 0 + 1)) with "1".
  rewrite !str_app_assoc. reflexivity.
Qed.

(** C10. On an empty array [generateEventosCSV] returns the header line
    with its line feed and nothing else: fifty-six characters, not the
    empty string that [generateCSV] returns for the same input. *)
Theorem eventos_csv_of_nothing :
  generateEventosCSV [] =
    ("ID,Tipo,Severidad,Descripcion,Timestamp,Camara,Resuelto" ++ NL)%string /\
  String.length (generateEventosCSV []) = 56%nat /\
  generateEventosCSV [] <> "" /\
  generateCSV Scalar scalar_text (Some []) = "".
Proof.
  split; [reflexivity|]. split; [reflexivity|]. split; [discriminate | reflexivity].
Qed.

(* ------------------------------------------------------------------ *)
(** ** The events export read back *)
(* ------------------------------------------------------------------ *)

Lemma uint_text_no_comma (d : Decimal.uint) :
  has_char comma (NilEmpty.string_of_uint d) = false.
Proof. induction d; simpl; assumption || reflexivity. Qed.

Lemma int_text_no_comma (z : Z) : has_char comma (Number_toString_int z) = false.
Proof.
  unfold Number_toString_int, NilZero.string_of_int, NilZero.string_of_uint.
  destruct (Z.to_int z) as [d|d]; destruct d; simpl;
    reflexivity || apply uint_text_no_comma.
Qed.

Lemma to_int_proper (z : Z) :
  Z.to_int z <> Decimal.Pos Decimal.Nil /\ Z.to_int z <> Decimal.Neg Decimal.Nil.
Proof.
  destruct z as [|p|p]; simpl; split; try discriminate;
    intros H; injection H as H; exact (Unsigned.to_uint_nonnil p H).
Qed.

Lemma read_int_text (z : Z) : read_int (Number_toString_int z) = Some z.
Proof.
  unfold read_int, Number_toString_int.
  destruct (to_int_proper z) as [Hp Hn].
  rewrite (NilZero.isi _ Hp Hn). simpl. f_equal. apply DecimalZ.of_to.
Qed.

Lemma take_until_app (c : ascii) (pre post : string) :
  has_char c pre = false ->
  take_until c (pre ++ String c post) = Some (pre, post).
Proof.
  induction pre as [|a pre IH]; simpl; intros H.
  - now rewrite Ascii.eqb_refl.
  - apply orb_false_iff in H. destruct H as [Ha Hpre]. now rewrite Ha, (IH Hpre).
Qed.

Lemma strip_prefix_app (p s : string) : strip_prefix p (p ++ s) = Some s.
Proof.
  induction p as [|a p IH]; simpl; [reflexivity|]. now rewrite Ascii.eqb_refl.
Qed.

Lemma read_quoted_comma_field (v rest : string) :
  has_dquote v = false ->
  read_quoted_comma (quoted v ++ "," ++ rest) = Some (v, rest).
Proof.
  intros H. unfold read_quoted_comma, read_quoted, quoted, str1.
  rewrite !str_app_assoc. cbn [append]. rewrite Ascii.eqb_refl.
  rewrite (take_until_app dquote v _ H). reflexivity.
Qed.

Lemma read_bool_text (b : bool) (rest : string) :
  read_bool (Boolean_toString b ++ rest) = Some (b, rest).
Proof. destruct b; reflexivity. Qed.

Lemma plain_fields_split (e : Evento.t) :
  plain_fields e = true ->
  has_dquote (Evento.tipo e) = false /\
  has_dquote (Evento.severidad e) = false /\
  has_dquote (Evento.descripcion e) = false /\
  has_dquote (Evento.timestamp e) = false /\
  has_dquote (Evento.camara_nombre e) = false.
Proof.
  unfold plain_fields. rewrite !andb_true_iff, !negb_true_iff. tauto.
Qed.

(** One row read back, whatever follows it. *)
Lemma read_row_text (e : Evento.t) (rest : string) :
  plain_fields e = true ->
  read_row (evento_row e ++ rest) = Some (e, rest).
Proof.
  intros H. apply plain_fields_split in H.
  destruct H as [Htp [Hsv [Hds [Hts Hcm]]]].
  unfold read_row, evento_row. rewrite !str_app_assoc.
  change ("," ++ ?x)%string with (String comma x).
  rewrite (take_until_app comma _ _ (int_text_no_comma (Evento.id e))).
  rewrite read_int_text.
  repeat match goal with
         | |- context [read_quoted_comma (quoted ?v ++ "," ++ ?r)] =>
             rewrite (read_quoted_comma_field v r) by assumption
         end.
  rewrite read_bool_text. now destruct e.
Qed.

Lemma join_cons2 (sep x y : string) (xs : list string) :
  join sep (x :: y :: xs) = (x ++ sep ++ join sep (y :: xs))%string.
Proof. reflexivity. Qed.

(** Every row of a non-empty export read back. *)
Lemma read_rows_text (es : list Evento.t) (e : Evento.t) (fuel : nat) :
  (List.length (e :: es) <= fuel)%nat ->
  (forall x, In x (e :: es) -> plain_fields x = true) ->
  read_rows fuel (join NL (map evento_row (e :: es))) = Some (e :: es).
Proof.
  revert e fuel. induction es as [|e' es IH]; intros e fuel Hfuel Hplain.
  - destruct fuel as [|fuel]; [simpl in Hfuel; lia|].
    cbn [map join read_rows].
    rewrite <- (str_app_nil_r (evento_row e)).
    rewrite read_row_text by (apply Hplain; now left). reflexivity.
  - destruct fuel as [|fuel]; [simpl in Hfuel; lia|].
    cbn [map]. rewrite join_cons2. cbn [read_rows].
    rewrite read_row_text by (apply Hplain; now left).
    change (NL ++ ?x)%string with (String LF x). cbn iota. rewrite Ascii.eqb_refl.
    change (evento_row e' :: map evento_row es) with (map evento_row (e' :: es)).
    rewrite IH.
    + reflexivity.
    + simpl in *. lia.
    + intros x Hx. apply Hplain. now right.
Qed.

Lemma join_length_bound (sep : string) (xs : list string) :
  (1 <= String.length sep)%nat ->
  (List.length xs <= S (String.length (join sep xs)))%nat.
Proof.
  intros Hsep. induction xs as [|x xs IH]; [simpl; lia|].
  destruct xs as [|y xs]; [simpl; lia|].
  rewrite join_cons2, !str_app_length. simpl List.length in *. lia.
Qed.

Lemma evento_row_nonempty (e : Evento.t) (rest : string) :
  (evento_row e ++ rest)%string <> "".
Proof.
  unfold evento_row. rewrite !str_app_assoc.
  destruct (Number_toString_int (Evento.id e)); discriminate.
Qed.

Lemma parse_generated (data : list Evento.t) :
  (forall e, In e data -> plain_fields e = true) ->
  parseEventosCSV (generateEventosCSV data) = Some data.
Proof.
  intros Hplain. unfold parseEventosCSV, generateEventosCSV.
  rewrite strip_prefix_app. destruct data as [|e es]; [reflexivity|].
  assert (Hrows : read_rows (S (String.length (join NL (map evento_row (e :: es)))))
                            (join NL (map evento_row (e :: es))) = Some (e :: es)).
  { apply read_rows_text; [|assumption].
    rewrite <- (length_map evento_row (e :: es)).
    apply join_length_bound. simpl. lia. }
  destruct (join NL (map evento_row (e :: es))) as [|c body] eqn:E; [|exact Hrows].
  exfalso. destruct es as [|e' es].
  - simpl in E. apply (evento_row_nonempty e ""). now rewrite str_app_nil_r.
  - cbn [map] in E. rewrite join_cons2 in E. exact (evento_row_nonempty e _ E).
Qed.

(** C5, as the code has it. For every list of events none of whose string
    fields (tipo, severidad, descripcion, timestamp, camara_nombre) holds
    a double quote, reading the text of [generateEventosCSV] back gives the
    same list: every identifier, string field and resolved flag as it was,
    commas and line feeds inside the fields included. In particular no
    other such list has the same text. *)
Theorem eventos_csv_round_trip :
  forall data : list Evento.t,
    (forall e, In e data -> plain_fields e = true) ->
    parseEventosCSV (generateEventosCSV data) = Some data /\
    (forall other : list Evento.t,
       (forall e, In e other -> plain_fields e = true) ->
       generateEventosCSV other = generateEventosCSV data -> other = data).
Proof.
  intros data Hplain. split; [now apply parse_generated|].
  intros other Hother Heq.
  assert (H : Some other = Some data).
  { rewrite <- (parse_generated other Hother), Heq. now apply parse_generated. }
  now injection H.
Qed.

Lemma eventos_csv_round_trip_witness :
  let tricky := Evento.mk 9 "ronda, turno 2" "media" ("linea uno" ++ NL ++ "linea dos")
                          "2024-01-01T10:00:00Z" "Patio, norte" true in
  parseEventosCSV (generateEventosCSV [ev1; tricky; ev2]) = Some [ev1; tricky; ev2].
Proof.
  intros tricky.
  destruct (eventos_csv_round_trip [ev1; tricky; ev2]) as [H _]; [|exact H].
  intros e He. simpl in He. destruct He as [<-|[<-|[<-|[]]]]; reflexivity.
Defined.

(** C5 as worded fails: a double quote inside a field is written as it is,
    so the text of an event whose description quotes a word is not read
    back, and two different events can have the very same text, which no
    reader can tell apart. *)
Lemma quoted_field_not_read_back :
  parseEventosCSV (generateEventosCSV [ev_quote]) = None /\
  generateEventosCSV [ev_a] = generateEventosCSV [ev_b] /\
  String.eqb (Evento.tipo ev_a) (Evento.tipo ev_b) = false /\
  String.eqb (Evento.severidad ev_a) (Evento.severidad ev_b) = false.
Proof. now vm_compute. Qed.

(* ================================================================== *)
(** * Further properties of the page *)
(* ================================================================== *)

(* ------------------------------------------------------------------ *)
(** ** Toasts and alerts *)
(* ------------------------------------------------------------------ *)

Lemma forallb_false_witness {A : Type} (p : A -> bool) (l : list A) :
  forallb p l = false -> exists x, In x l /\ p x = false.
Proof.
  induction l as [|a l IH]; simpl; [discriminate|]. intros H.
  destruct (p a) eqn:E.
  - destruct (IH H) as [x [Hx Hp]]. exists x. split; [now right | assumption].
  - exists a. split; [now left | assumption].
Qed.

(** X1. After [showNotification], at whatever later time, the toast is
    visible exactly when none of the pending dismissals is due yet: neither
    the one this call scheduled, five seconds after it, nor any left over
    from earlier calls. *)
Theorem toast_visible_until_first_dismissal :
  forall (st : State) (ttl msg : string) (ty : ToastType) (t : Z),
    visible (advance t (showNotification ttl msg ty st)) =
    forallb (fun d => t <? d) (timers st ++ [clock st + DISPLAY_MS]).
Proof.
  intros st ttl msg ty t.
  set (s := showNotification ttl msg ty st).
  assert (Ht : timers s = (timers st ++ [clock st + DISPLAY_MS])%list) by reflexivity.
  rewrite <- Ht.
  destruct (forallb (fun d => t <? d) (timers s)) eqn:E.
  - assert (Hsame : toast (advance t s) = toast s).
    { apply advance_nothing_due. intros d Hd.
      rewrite forallb_forall in E. apply Z.ltb_lt. now apply E. }
    unfold visible. rewrite Hsame. exact (showNotification_visible ttl msg ty st).
  - apply forallb_false_witness in E. destruct E as [d [Hd Hp]].
    apply (advance_some_due t d); [assumption|]. apply Z.ltb_ge in Hp. lia.
Qed.

Lemma map_const_repeat {A B : Type} (c : B) (l : list A) :
  map (fun _ => c) l = repeat c (List.length l).
Proof. induction l as [|a l IH]; simpl; [reflexivity|]. now rewrite IH. Qed.

Lemma last_toast_snoc (es : list Evento.t) (e : Evento.t) (t0 : Toast) :
  last_toast (es ++ [e]) t0 =
  mkToast ["toast"; "error"; "active"] NUEVO_EVENTO
          (Evento.tipo e ++ ": " ++ Evento.descripcion e).
Proof. unfold last_toast. now rewrite fold_left_app. Qed.

(** X2. When one response brings several new events, every one of them is
    alerted and recorded, in the order fetched, but the slot ends up
    holding the alert of the last one only; all their dismissals fall due
    at the same instant, and the badge shows the new length of the
    array. *)
Theorem only_last_alert_stays :
  forall (st : State) (data es : list Evento.t) (e : Evento.t),
    fresh_events st data = (es ++ [e])%list ->
    let s := checkNewEvents (Body true data) st in
    toast s = mkToast ["toast"; "error"; "active"] NUEVO_EVENTO
                      (Evento.tipo e ++ ": " ++ Evento.descripcion e) /\
    shown s = (shown st ++ map alert_of es ++ [alert_of e])%list /\
    notifications s = (notifications st ++ ids es ++ [Evento.id e])%list /\
    timers s = (timers st ++ repeat (clock st + DISPLAY_MS) (S (List.length es)))%list /\
    notificationCount s = Number_toString_int (count s).
Proof.
  intros st data es e Hfresh s.
  assert (Hs : s = set_notificationCount
                     (Number_toString_int (count (fold_left notify_event (es ++ [e]) st)))
                     (fold_left notify_event (es ++ [e]) st)).
  { unfold s, checkNewEvents. fold (fresh_events st data). rewrite Hfresh.
    replace (0 <? Z.of_nat (List.length (es ++ [e]))) with true; [reflexivity|].
    symmetry. apply Z.ltb_lt. rewrite length_app. simpl. lia. }
  rewrite Hs, forEach_closed. cbn.
  rewrite last_toast_snoc, map_app, map_const_repeat, length_app. unfold ids.
  rewrite map_app. cbn. rewrite Nat.add_1_r. repeat split.
Qed.

Lemma only_last_alert_stays_witness :
  let s := checkNewEvents (Body true [ev1; ev2]) initial_state in
  toast s = mkToast ["toast"; "error"; "active"] NUEVO_EVENTO
                    "horario_inusual: Acceso nocturno" /\
  List.length (shown s) = 2%nat /\
  timers s = [5000; 5000].
Proof.
  intros s.
  destruct (only_last_alert_stays initial_state [ev1; ev2] [ev1] ev2 eq_refl)
    as [H1 [H2 [_ [H4 _]]]].
  split; [exact H1|]. split; [|exact H4].
  fold s in H2. rewrite H2. reflexivity.
Defined.

(** X3. The badge has two writers, [loadStats] (the server's count of
    pending events) and [checkNewEvents] (the length of the seen array,
    written only when a response brings new events). In a refresh where
    both succeed and new events arrive, the badge ends on whichever
    finished last; when no new event arrives it shows the server's count
    in either order. *)
Theorem badge_shows_last_writer :
  forall (st : State) (stats : Stats) (data : list Evento.t)
         (rd : FetchOutcome (list Deteccion.t)),
    let rs := mkResponses (Body true stats) rd (Body true data) in
    let seen := Number_toString_int
                  (Z.of_nat (List.length (notifications st) +
                             List.length (fresh_events st data))) in
    let pending := Number_toString_int (eventos_pendientes stats) in
    notificationCount (pollCycle [StepEventos; StepStats] rs st) = pending /\
    notificationCount (pollCycle [StepStats; StepEventos] rs st) =
      match fresh_events st data with
      | [] => pending
      | _ :: _ => seen
      end.
Proof.
  intros st stats data rd rs seen pending. split; [reflexivity|].
  unfold pollCycle. cbn [fold_left complete r_stats r_eventos rs].
  set (st1 := loadStats (Body true stats) st).
  assert (Hn : notifications st1 = notifications st) by reflexivity.
  assert (Hf : fresh_events st1 data = fresh_events st data).
  { unfold fresh_events, isNew. now rewrite Hn. }
  unfold checkNewEvents. fold (fresh_events st1 data). rewrite Hf.
  destruct (fresh_events st data) as [|e es] eqn:E; [reflexivity|].
  cbn [List.length]. rewrite forEach_closed. cbn. unfold count, seen. cbn.
  rewrite length_app. cbn [List.length]. now rewrite length_map.
Qed.

(* ------------------------------------------------------------------ *)
(** ** Text reports of any length *)
(* ------------------------------------------------------------------ *)

Lemma forEach_idx_appends {A : Type} (f : string -> A -> nat -> string)
    (g : nat -> A -> string) (l : list A) :
  (forall c x i, f c x i = (c ++ g i x)%string) ->
  forall (i : nat) (acc : string),
    forEach_idx f l i acc = (acc ++ concat_str (blocks_from g i l))%string.
Proof.
  intros Hf. induction l as [|x l IH]; intros i acc; simpl.
  - now rewrite str_app_nil_r.
  - now rewrite IH, Hf, str_app_assoc.
Qed.

Lemma blocks_from_length {A : Type} (g : nat -> A -> string) (l : list A) (i : nat) :
  List.length (blocks_from g i l) = List.length l.
Proof. revert i. induction l as [|x l IH]; intros i; simpl; [reflexivity|]. now rewrite IH. Qed.

Lemma blocks_from_app {A : Type} (g : nat -> A -> string) (a b : list A) (i : nat) :
  blocks_from g i (a ++ b) =
  (blocks_from g i a ++ blocks_from g (i + List.length a) b)%list.
Proof.
  revert i. induction a as [|x a IH]; intros i; simpl.
  - now rewrite Nat.add_0_r.
  - rewrite IH. now rewrite Nat.add_succ_comm.
Qed.

Lemma blocks_from_nth {A : Type} (g : nat -> A -> string) (l : list A) (i k : nat) (x : A) :
  nth_error l k = Some x -> nth_error (blocks_from g i l) k = Some (g (i + k)%nat x).
Proof.
  revert i k. induction l as [|y l IH]; intros i k H; destruct k as [|k]; simpl in *;
    try discriminate.
  - injection H as ->. now rewrite Nat.add_0_r.
  - rewrite (IH (S i) k H). now rewrite Nat.add_succ_comm.
Qed.

(** X4. For any list of detections, the report is the heading with the
    number of detections, followed by one block per detection in the order
    given; the block of the detection at position [k] (from zero) starts
    with the ordinal [k + 1] and carries its name, timestamp, state and
    confidence. The report of a list followed by another has the blocks of
    both, the ordinals of the second continuing those of the first. *)
Theorem detections_report_blocks :
  forall (Number_toString : float -> string) (generado : string)
         (data more : list Deteccion.t),
    let block := fun (k : nat) (det : Deteccion.t) =>
      (Number_toString_int (Z.of_nat k + 1) ++ ". " ++
       Deteccion.nombre det ++ " " ++ or_empty (Deteccion.apellido det) ++ NL ++
       "   Fecha: " ++ Deteccion.timestamp det ++ NL ++
       "   Estado: " ++
       (if Deteccion.es_desconocido det then "DESCONOCIDO" else "CONOCIDO") ++ NL ++
       "   Confianza: " ++
       toFixed Number_toString (Deteccion.confianza det * 100)%float 1 ++ "%" ++ NL ++
       NL)%string in
    let heading := fun (n : nat) =>
      ("=== REPORTE DE DETECCIONES ===" ++ NL ++ NL ++
       "Generado: " ++ generado ++ NL ++
       "Total de detecciones: " ++ Number_toString_int (Z.of_nat n) ++ NL ++ NL ++
       repeat_str RULE_CHAR 70 ++ NL ++ NL)%string in
    generatePDFContent Number_toString generado data =
      (heading (List.length data) ++ concat_str (blocks_from block 0 data))%string /\
    List.length (blocks_from block 0 data) = List.length data /\
    (forall k det, nth_error data k = Some det ->
       nth_error (blocks_from block 0 data) k = Some (block k det)) /\
    blocks_from block 0 (data ++ more) =
      (blocks_from block 0 data ++ blocks_from block (List.length data) more)%list.
Proof.
  intros Number_toString generado data more block heading.
  split; [|split; [apply blocks_from_length|split]].
  - unfold generatePDFContent.
    rewrite (forEach_idx_appends (append_deteccion Number_toString) block).
    + unfold heading. now rewrite !str_app_assoc.
    + intros c x i. unfold append_deteccion, block. now rewrite !str_app_assoc.
  - intros k det H. exact (blocks_from_nth block data 0 k det H).
  - exact (blocks_from_app block data more 0).
Qed.

Lemma detections_report_blocks_witness :
  let bob := Deteccion.mk "Desconocido" None true 0%float "2024-01-01T10:05:00Z" in
  generatePDFContent sample_number_text "1/1/2024, 10:06:00" [ana; bob] =
    ("=== REPORTE DE DETECCIONES ===" ++ NL ++ NL ++
     "Generado: 1/1/2024, 10:06:00" ++ NL ++
     "Total de detecciones: 2" ++ NL ++ NL ++
     repeat_str RULE_CHAR 70 ++ NL ++ NL ++
     "1. Ana Lopez" ++ NL ++
     "   Fecha: 2024-01-01T10:00:00Z" ++ NL ++
     "   Estado: CONOCIDO" ++ NL ++
     "   Confianza: 87.3%" ++ NL ++ NL ++
     "2. Desconocido " ++ NL ++
     "   Fecha: 2024-01-01T10:05:00Z" ++ NL ++
     "   Estado: DESCONOCIDO" ++ NL ++
     "   Confianza: 0.0%" ++ NL ++ NL)%string.
Proof.
  intros bob.
  destruct (detections_report_blocks sample_number_text "1/1/2024, 10:06:00" [ana; bob] [])
    as [H _].
  rewrite H. vm_compute. reflexivity.
Defined.

(** X5. For any list of events, the events report is the heading with the
    number of events, followed by one block per event in the order given;
    the block of the event at position [k] (from zero) starts with the
    ordinal [k + 1] and carries its type, its severity in upper case, its
    timestamp and its description, each as it came. *)
Theorem events_report_blocks :
  forall (toUpperCase : string -> string) (generado : string)
         (data more : list Evento.t),
    let block := fun (k : nat) (evento : Evento.t) =>
      (Number_toString_int (Z.of_nat k + 1) ++ ". " ++ Evento.tipo evento ++ NL ++
       "   Severidad: " ++ toUpperCase (Evento.severidad evento) ++ NL ++
       "   Fecha: " ++ Evento.timestamp evento ++ NL ++
       "   Descripción: " ++ Evento.descripcion evento ++ NL ++
       NL)%string in
    let heading := fun (n : nat) =>
      ("=== REPORTE DE EVENTOS ===" ++ NL ++ NL ++
       "Generado: " ++ generado ++ NL ++
       "Total de eventos: " ++ Number_toString_int (Z.of_nat n) ++ NL ++ NL ++
       repeat_str RULE_CHAR 70 ++ NL ++ NL)%string in
    generateEventosPDFContent toUpperCase generado data =
      (heading (List.length data) ++ concat_str (blocks_from block 0 data))%string /\
    List.length (blocks_from block 0 data) = List.length data /\
    (forall k evento, nth_error data k = Some evento ->
       nth_error (blocks_from block 0 data) k = Some (block k evento)) /\
    blocks_from block 0 (data ++ more) =
      (blocks_from block 0 data ++ blocks_from block (List.length data) more)%list.
Proof.
  intros toUpperCase generado data more block heading.
  split; [|split; [apply blocks_from_length|split]].
  - unfold generateEventosPDFContent.
    rewrite (forEach_idx_appends (append_evento toUpperCase) block).
    + unfold heading. now rewrite !str_app_assoc.
    + intros c x i. unfold append_evento, block. now rewrite !str_app_assoc.
  - intros k evento H. exact (blocks_from_nth block data 0 k evento H).
  - exact (blocks_from_app block data more 0).
Qed.

Lemma events_report_blocks_witness :
  generateEventosPDFContent upper_latin "1/1/2024, 10:06:00" [ev1] =
    ("=== REPORTE DE EVENTOS ===" ++ NL ++ NL ++
     "Generado: 1/1/2024, 10:06:00" ++ NL ++
     "Total de eventos: 1" ++ NL ++ NL ++
     repeat_str RULE_CHAR 70 ++ NL ++ NL ++
     "1. intruso_detectado" ++ NL ++
     "   Severidad: ALTA" ++ NL ++
     "   Fecha: 2024-01-01T10:00:00Z" ++ NL ++
     "   Descripción: Rostro desconocido" ++ NL ++ NL)%string.
Proof.
  destruct (events_report_blocks upper_latin "1/1/2024, 10:06:00" [ev1] []) as [H _].
  rewrite H. vm_compute. reflexivity.
Defined.

(* ------------------------------------------------------------------ *)
(** ** Sessions on the whole page *)
(* ------------------------------------------------------------------ *)

Lemma alerts_app (st : State) (l : list NotificationRequest) (shown' : list NotificationRequest) :
  shown' = (shown st ++ l)%list ->
  filter is_alert shown' = (alerts st ++ filter is_alert l)%list.
Proof. intros ->. unfold alerts. apply filter_app. Qed.

Lemma alerts_of_events (es : list Evento.t) :
  filter is_alert (map alert_of es) = map alert_of es.
Proof.
  induction es as [|e es IH]; [reflexivity|]. cbn [map filter].
  change (is_alert (alert_of e)) with (String.eqb NUEVO_EVENTO NUEVO_EVENTO).
  now rewrite String.eqb_refl, IH.
Qed.

(** What one action of the notification engine does to the array and to
    the alerts shown: it appends the same number of entries to both. *)
Lemma checkNewEvents_grows (r : FetchOutcome (list Evento.t)) (st : State) :
  exists es,
    notifications (checkNewEvents r st) = (notifications st ++ ids es)%list /\
    alerts (checkNewEvents r st) = (alerts st ++ map alert_of es)%list.
Proof.
  destruct r as [| |[|] data].
  1,2,4: exists []; simpl; rewrite !app_nil_r; split; reflexivity.
  exists (fresh_events st data). split; [apply checkNewEvents_notifications|].
  unfold alerts at 1. rewrite (alerts_app st _ _ (checkNewEvents_shown data st)).
  now rewrite alerts_of_events.
Qed.

Lemma complete_grows (rs : Responses) (s : Step) (st : State) :
  exists es,
    notifications (complete rs st s) = (notifications st ++ ids es)%list /\
    alerts (complete rs st s) = (alerts st ++ map alert_of es)%list.
Proof.
  destruct s; cbn [complete].
  - exists []. simpl. rewrite !app_nil_r. split; [apply loadStats_notifications|].
    destruct (r_stats rs) as [| |[|] d]; reflexivity.
  - exists []. simpl. rewrite !app_nil_r. split; [apply loadDetecciones_notifications|].
    destruct (r_detecciones rs) as [| |ok ds]; try reflexivity.
    unfold loadDetecciones. now destruct (ok && _).
  - apply checkNewEvents_grows.
Qed.

Lemma pollCycle_grows (order : list Step) (rs : Responses) (st : State) :
  exists es,
    notifications (pollCycle order rs st) = (notifications st ++ ids es)%list /\
    alerts (pollCycle order rs st) = (alerts st ++ map alert_of es)%list.
Proof.
  revert st. induction order as [|s order IH]; intros st.
  - exists []. simpl. now rewrite !app_nil_r.
  - rewrite pollCycle_cons.
    destruct (complete_grows rs s st) as [es1 [Hn1 Ha1]].
    destruct (IH (complete rs st s)) as [es2 [Hn2 Ha2]].
    exists (es1 ++ es2)%list. rewrite Hn2, Ha2, Hn1, Ha1. unfold ids.
    now rewrite !map_app, <- !app_assoc.
Qed.

Lemma act_grows (a : Action) (st : State) :
  exists es,
    notifications (act st a) = (notifications st ++ ids es)%list /\
    alerts (act st a) = (alerts st ++ map alert_of es)%list.
Proof.
  destruct a; cbn [act].
  - exists []. simpl. rewrite !app_nil_r. split; [apply advance_notifications|].
    unfold alerts. now rewrite advance_shown.
  - apply pollCycle_grows.
  - apply checkNewEvents_grows.
  - apply (complete_grows (mkResponses r NetworkError NetworkError) StepStats).
  - apply (complete_grows (mkResponses NetworkError r NetworkError) StepDetecciones).
  - exists []. simpl. rewrite !app_nil_r. split; [reflexivity|].
    unfold alerts, toggleNotifications, showNotification. cbn.
    rewrite filter_app. cbn. now rewrite app_nil_r.
Qed.

(** Solves goals stating that a handler outside the notification engine
    leaves the array and the alerts as they were. *)
Ltac engine_untouched :=
  split; [reflexivity|];
  unfold alerts; cbn; rewrite ?filter_app; cbn; rewrite ?app_nil_r; reflexivity.

Section PageSessions.

Variable JsValue : Type.
Variable join_text : JsValue -> string.
Variable Number_toString : float -> string.
Variable toUpperCase : string -> string.

Local Abbreviation pact := (page_act JsValue join_text Number_toString toUpperCase).
Local Abbreviation prun := (page_run JsValue join_text Number_toString toUpperCase).

Lemma page_act_grows (a : PageAction JsValue) (pg : Page) :
  exists es,
    notifications (base (pact pg a)) = (notifications (base pg) ++ ids es)%list /\
    alerts (base (pact pg a)) = (alerts (base pg) ++ map alert_of es)%list.
Proof.
  destruct a as [b|x|o| | |m| |u| |f| |r|r|r|i|r|r|c| |r|k v|r];
    try (apply (act_grows b (base pg)));
    exists []; simpl map; rewrite !app_nil_r.
  - destruct x; engine_untouched.
  - destruct o as [r g|r|r g|r|r g|r]; destruct r as [| |[|] d]; engine_untouched.
  - unfold pact, openAddPersonModal. destruct (existsb _ _); engine_untouched.
  - unfold pact, closeModal, stopCamera. cbn.
    destruct (videoStream (camera pg)); engine_untouched.
  - destruct m; engine_untouched.
  - unfold pact, stopCamera. destruct (videoStream (camera pg)); engine_untouched.
  - unfold pact, capturePhoto, stopCamera. cbn.
    destruct (videoStream (camera pg)); engine_untouched.
  - engine_untouched.
  - engine_untouched.
  - unfold pact, submitNewPerson_call. destruct (no_photo pg); engine_untouched.
  - destruct r as [| |[|] d]; try engine_untouched.
    unfold pact, submitNewPerson_response, closeModal, stopCamera. cbn.
    destruct (videoStream (camera pg)); engine_untouched.
  - destruct r as [| |ok d]; try engine_untouched.
    unfold pact, loadPersonas. destruct (ok && _); engine_untouched.
  - destruct r as [| |ok d]; try engine_untouched.
    unfold pact, loadEventos. destruct (ok && _); engine_untouched.
  - engine_untouched.
  - destruct r as [| |[|] d]; engine_untouched.
  - destruct r as [| |[|] d]; engine_untouched.
  - engine_untouched.
  - engine_untouched.
  - destruct r as [| |[|] d]; engine_untouched.
  - engine_untouched.
  - destruct r as [| |[|] d]; engine_untouched.
Qed.

Lemma page_run_grows (acts : list (PageAction JsValue)) (pg : Page) :
  exists es,
    notifications (base (prun acts pg)) = (notifications (base pg) ++ ids es)%list /\
    alerts (base (prun acts pg)) = (alerts (base pg) ++ map alert_of es)%list.
Proof.
  revert pg. induction acts as [|a acts IH]; intros pg.
  - exists []. simpl. now rewrite !app_nil_r.
  - cbn [page_run fold_left].
    destruct (page_act_grows a pg) as [es1 [Hn1 Ha1]].
    destruct (IH (pact pg a)) as [es2 [Hn2 Ha2]].
    exists (es1 ++ es2)%list. unfold page_run in *. rewrite Hn2, Ha2, Hn1, Ha1. unfold ids.
    now rewrite !map_app, <- !app_assoc.
Qed.

(** X6. Through any session on the page, whatever is clicked, typed,
    resolved, exported or answered, the seen array only grows at its end:
    what it held stays where it was. Resolving an event does not take its
    identifier out, so the number [toggleNotifications] reports as pending
    never goes down. *)
Theorem seen_array_append_only :
  forall (acts : list (PageAction JsValue)) (pg : Page),
    (exists added,
       notifications (base (prun acts pg)) = (notifications (base pg) ++ added)%list) /\
    count (base pg) <= count (base (prun acts pg)) /\
    forall (eventoId : Z) (r : FetchOutcome unit),
      notifications (base (resolverEvento_response r (resolverEvento_call eventoId pg))) =
      notifications (base pg).
Proof.
  intros acts pg. destruct (page_run_grows acts pg) as [es [Hn _]].
  split; [now exists (ids es)|]. split.
  - unfold count. rewrite Hn, length_app. lia.
  - intros eventoId r. now destruct r as [| |[|] d].
Qed.


End PageSessions.

(* ------------------------------------------------------------------ *)
(** ** Exports *)
(* ------------------------------------------------------------------ *)

Section ExportSessions.

Variable JsValue : Type.
Variable join_text : JsValue -> string.
Variable Number_toString : float -> string.
Variable toUpperCase : string -> string.

Local Abbreviation pact := (page_act JsValue join_text Number_toString toUpperCase).
Local Abbreviation prun := (page_run JsValue join_text Number_toString toUpperCase).
Local Abbreviation files := (files_of JsValue join_text Number_toString toUpperCase).

Lemma page_act_downloads (a : PageAction JsValue) (pg : Page) :
  downloads (pact pg a) = (downloads pg ++ files a)%list.
Proof.
  destruct a as [b|x|o| | |m| |u| |f| |r|r|r|i|r|r|c| |r|k v|r];
    cbn [files_of]; rewrite ?app_nil_r; try reflexivity.
  - now destruct x.
  - destruct o as [r g|r|r g|r|r g|r]; destruct r as [| |[|] d];
      cbn; rewrite ?app_nil_r; reflexivity.
  - unfold pact, openAddPersonModal. now destruct (existsb _ _).
  - unfold pact, closeModal, stopCamera. cbn. now destruct (videoStream (camera pg)).
  - now destruct m.
  - unfold pact, stopCamera. now destruct (videoStream (camera pg)).
  - unfold pact, capturePhoto, stopCamera. cbn. now destruct (videoStream (camera pg)).
  - unfold pact, submitNewPerson_call. now destruct (no_photo pg).
  - destruct r as [| |[|] d]; try reflexivity.
    unfold pact, submitNewPerson_response, closeModal, stopCamera. cbn.
    now destruct (videoStream (camera pg)).
  - destruct r as [| |ok d]; try reflexivity.
    unfold pact, loadPersonas. now destruct (ok && _).
  - destruct r as [| |ok d]; try reflexivity.
    unfold pact, loadEventos. now destruct (ok && _).
  - now destruct r as [| |[|] d].
  - now destruct r as [| |[|] d].
  - now destruct r as [| |[|] d].
  - now destruct r as [| |[|] d].
Qed.

(** X8. Through any session, the files handed to the browser are exactly
    those of the export responses that arrived with [success] set, one
    file each, in the order the responses arrived, under the fixed name
    and type of that export and with the text its generator makes of the
    response; nothing else on the page downloads anything. An export
    response with [success: false] leaves the whole page as it was: no
    file, no toast, no log. *)
Theorem downloads_follow_successful_exports :
  forall (acts : list (PageAction JsValue)) (pg : Page),
    downloads (prun acts pg) = (downloads pg ++ flat_map files acts)%list /\
    downloads (prun acts initial_page) = flat_map files acts /\
    (forall o : ExportOutcome JsValue,
       refused JsValue o = true ->
       export_response JsValue join_text Number_toString toUpperCase o pg = pg).
Proof.
  intros acts pg.
  assert (H : forall pg0, downloads (prun acts pg0) = (downloads pg0 ++ flat_map files acts)%list).
  { induction acts as [|a acts IH]; intros pg0.
    - simpl. now rewrite app_nil_r.
    - cbn [page_run fold_left flat_map]. unfold page_run in IH.
      rewrite IH, page_act_downloads. now rewrite <- app_assoc. }
  split; [apply H|]. split; [apply (H initial_page)|].
  intros o Ho.
  destruct o as [r g|r|r g|r|r g|r]; destruct r as [| |[|] d];
    try discriminate; reflexivity.
Qed.

End ExportSessions.

(* ------------------------------------------------------------------ *)
(** ** Registration and camera *)
(* ------------------------------------------------------------------ *)

Section Registration.

Variable JsValue : Type.
Variable join_text : JsValue -> string.
Variable Number_toString : float -> string.
Variable toUpperCase : string -> string.

Local Abbreviation pact := (page_act JsValue join_text Number_toString toUpperCase).
Local Abbreviation prun := (page_run JsValue join_text Number_toString toUpperCase).

Lemma persona_images_app (a b : list Request) :
  persona_images (a ++ b) = (persona_images a ++ persona_images b)%list.
Proof. unfold persona_images. apply flat_map_app. Qed.

Lemma photo_text_nonempty (pg : Page) : no_photo pg = false -> photo_text pg <> "".
Proof.
  unfold no_photo, photo_text. destruct (capturedImageData (camera pg)) as [s|].
  - intros H. now apply String.eqb_neq.
  - discriminate.
Qed.

Lemma page_act_images (a : PageAction JsValue) (pg : Page) :
  Forall (fun img => img <> "") (persona_images (posted pg)) ->
  Forall (fun img => img <> "") (persona_images (posted (pact pg a))).
Proof.
  intros H.
  destruct a as [b|x|o| | |m| |u| |f| |r|r|r|i|r|r|c| |r|k v|r]; try exact H.
  - now destruct x.
  - now destruct o as [r g|r|r g|r|r g|r]; destruct r as [| |[|] d].
  - unfold pact, openAddPersonModal. now destruct (existsb _ _).
  - unfold pact, closeModal, stopCamera. cbn. now destruct (videoStream (camera pg)).
  - now destruct m.
  - unfold pact, stopCamera. now destruct (videoStream (camera pg)).
  - unfold pact, capturePhoto, stopCamera. cbn. now destruct (videoStream (camera pg)).
  - unfold pact, submitNewPerson_call. destruct (no_photo pg) eqn:E; [exact H|].
    cbn. rewrite persona_images_app. apply Forall_app. split; [exact H|].
    cbn. constructor; [now apply photo_text_nonempty | constructor].
  - destruct r as [| |[|] d]; try exact H.
    unfold pact, submitNewPerson_response, closeModal, stopCamera. cbn.
    now destruct (videoStream (camera pg)).
  - destruct r as [| |ok d]; try exact H.
    unfold pact, loadPersonas. now destruct (ok && _).
  - destruct r as [| |ok d]; try exact H.
    unfold pact, loadEventos. now destruct (ok && _).
  - cbn. rewrite persona_images_app. cbn. now rewrite app_nil_r.
  - now destruct r as [| |[|] d].
  - now destruct r as [| |[|] d].
  - cbn. rewrite persona_images_app. cbn. now rewrite app_nil_r.
  - now destruct r as [| |[|] d].
  - cbn. rewrite persona_images_app. cbn. now rewrite app_nil_r.
  - now destruct r as [| |[|] d].
Qed.

(** X9. Through any session started on the fresh page, no registration
    request leaves without a picture: the image of every [POST] to
    [/personas] is a non-empty string. A submit with no picture held sends
    nothing and shows the error toast instead. *)
Theorem registration_always_carries_a_photo :
  forall (acts : list (PageAction JsValue)) (pg : Page),
    Forall (fun img => img <> "") (persona_images (posted (prun acts initial_page))) /\
    (no_photo pg = true ->
       posted (submitNewPerson_call pg) = posted pg /\
       shown (base (submitNewPerson_call pg)) =
         (shown (base pg) ++ [mkRequest "Error" "Debes capturar una foto" error])%list).
Proof.
  intros acts pg. split.
  - assert (H : forall pg0, Forall (fun img => img <> "") (persona_images (posted pg0)) ->
                  Forall (fun img => img <> "") (persona_images (posted (prun acts pg0)))).
    { induction acts as [|a acts IH]; intros pg0 H0; [exact H0|].
      cbn [page_run fold_left]. apply IH. now apply page_act_images. }
    apply H. constructor.
  - intros Hno. unfold submitNewPerson_call. rewrite Hno. split; reflexivity.
Qed.

(** X10. A registration that succeeds uses the picture up: the captured
    image is cleared, the form goes back to its defaults, the modal
    closes and the camera is released, so submitting again straight away
    is refused for want of a picture. A registration that fails, by an
    unsuccessful body or by a thrown error, keeps picture, form, modal and
    camera as they were, ready for another attempt. *)
Theorem successful_registration_consumes_photo :
  forall (r : FetchOutcome string) (pg : Page),
    let pg' := submitNewPerson_response r pg in
    (delivered_ok r = true ->
       no_photo pg' = true /\
       personForm pg' = personFormDefaults pg /\
       videoStream (camera pg') = None /\
       existsb (String.eqb "active") (addPersonModal pg') = false /\
       posted (submitNewPerson_call pg') = posted pg) /\
    (delivered_ok r = false ->
       camera pg' = camera pg /\
       personForm pg' = personForm pg /\
       addPersonModal pg' = addPersonModal pg /\
       posted pg' = posted pg).
Proof.
  intros r pg pg'. split; intros H.
  - destruct r as [| |[|] d]; try discriminate. clear H.
    assert (Hmodal : forall l, existsb (String.eqb "active")
                        (filter (fun c => negb (String.eqb c "active")) l) = false).
    { induction l as [|c l IH]; [reflexivity|]. cbn [filter].
      destruct (String.eqb c "active") eqn:E; cbn [negb]; [assumption|].
      cbn [existsb]. now rewrite String.eqb_sym, E. }
    unfold pg', submitNewPerson_response, closeModal, stopCamera. cbn.
    destruct (videoStream (camera pg)) eqn:E; cbn; rewrite ?E;
      repeat split; try apply Hmodal; try exact E.
  - destruct r as [| |[|] d]; try discriminate; repeat split.
Qed.

End Registration.

Lemma successful_registration_consumes_photo_witness :
  let ready := capturePhoto "data:image/jpeg;base64,AAAA"
                 (startCamera (Granted 1) (openAddPersonModal initial_page)) in
  let sent := submitNewPerson_call ready in
  persona_images (posted sent) = ["data:image/jpeg;base64,AAAA"] /\
  no_photo (submitNewPerson_response (Body true "") sent) = true /\
  posted (submitNewPerson_call (submitNewPerson_response (Body true "") sent)) = posted sent /\
  camera (submitNewPerson_response (Body false "Rostro no detectado") sent) = camera sent.
Proof.
  intros ready sent.
  destruct (successful_registration_consumes_photo (Body true "") sent) as [Hok _].
  destruct (successful_registration_consumes_photo (Body false "Rostro no detectado") sent)
    as [_ Hno].
  destruct (Hok eq_refl) as [H1 [_ [_ [_ H5]]]].
  destruct (Hno eq_refl) as [H6 _].
  split; [reflexivity|]. split; [exact H1|]. split; [exact H5 | exact H6].
Defined.

Lemma registration_always_carries_a_photo_witness :
  posted (submitNewPerson_call initial_page) = [] /\
  shown (base (submitNewPerson_call initial_page)) =
    [mkRequest "Error" "Debes capturar una foto" error].
Proof.
  destruct (registration_always_carries_a_photo Scalar scalar_text sample_number_text
              upper_latin [] initial_page) as [_ H].
  exact (H eq_refl).
Defined.

Lemma downloads_follow_successful_exports_witness :
  let acts := [ExportClick Scalar ExportEventosExcel;
               ExportArrives Scalar (OutEventosExcel Scalar (Body true []));
               ExportClick Scalar ExportExcel;
               ExportArrives Scalar (OutExcel Scalar (Body false None));
               ExportClick Scalar ExportPersonas;
               ExportArrives Scalar (OutPersonas Scalar (Body true (Some [])))] in
  downloads (page_run Scalar scalar_text sample_number_text upper_latin acts initial_page) =
    [mkDownload EVENTOS_HEADERS "eventos.csv" "text/csv";
     mkDownload "" "personas_registradas.csv" "text/csv"] /\
  export_response Scalar scalar_text sample_number_text upper_latin
    (OutExcel Scalar (Body false None)) initial_page = initial_page.
Proof.
  intros acts.
  destruct (downloads_follow_successful_exports Scalar scalar_text sample_number_text
              upper_latin acts initial_page) as [_ [H1 H2]].
  split; [exact H1 | exact (H2 (OutExcel Scalar (Body false None)) eq_refl)].
Defined.

(* ------------------------------------------------------------------ *)
(** ** The camera *)
(* ------------------------------------------------------------------ *)

(** The streams a handler stops: the one held, if one is held. *)
Lemma stopCamera_releases (pg : Page) :
  videoStream (camera (stopCamera pg)) = None /\
  stopped (camera (stopCamera pg)) =
    (stopped (camera pg) ++
     match videoStream (camera pg) with Some s => [s] | None => [] end)%list.
Proof.
  unfold stopCamera. destruct (videoStream (camera pg)) eqn:E; cbn.
  - now split.
  - rewrite ?E, app_nil_r. now split.
Qed.

Lemma closeModal_releases (pg : Page) :
  videoStream (camera (closeModal pg)) = None /\
  stopped (camera (closeModal pg)) =
    (stopped (camera pg) ++
     match videoStream (camera pg) with Some s => [s] | None => [] end)%list.
Proof.
  unfold closeModal, stopCamera. cbn. destruct (videoStream (camera pg)) eqn:E; cbn.
  - now split.
  - rewrite ?E, app_nil_r. now split.
Qed.

Lemma capturePhoto_releases (dataURL : string) (pg : Page) :
  videoStream (camera (capturePhoto dataURL pg)) = None /\
  stopped (camera (capturePhoto dataURL pg)) =
    (stopped (camera pg) ++
     match videoStream (camera pg) with Some s => [s] | None => [] end)%list.
Proof.
  unfold capturePhoto, stopCamera. cbn. destruct (videoStream (camera pg)) eqn:E; cbn.
  - now split.
  - rewrite ?E, app_nil_r. now split.
Qed.

Lemma registered_releases (d : string) (pg : Page) :
  videoStream (camera (submitNewPerson_response (Body true d) pg)) = None /\
  stopped (camera (submitNewPerson_response (Body true d) pg)) =
    (stopped (camera pg) ++
     match videoStream (camera pg) with Some s => [s] | None => [] end)%list.
Proof.
  unfold submitNewPerson_response, closeModal, stopCamera. cbn.
  destruct (videoStream (camera pg)) eqn:E; cbn.
  - now split.
  - rewrite ?E, app_nil_r. now split.
Qed.

(** X11. Stopping the camera, closing the modal, capturing a picture and a
    successful registration each leave no stream held and stop the tracks
    of exactly the stream that was held, if one was; with none held they
    stop nothing. In particular stopping twice stops nothing more. *)
Theorem camera_released :
  forall (pg : Page) (dataURL d : string),
    let held := match videoStream (camera pg) with Some s => [s] | None => [] end in
    (videoStream (camera (stopCamera pg)) = None /\
     stopped (camera (stopCamera pg)) = (stopped (camera pg) ++ held)%list) /\
    (videoStream (camera (closeModal pg)) = None /\
     stopped (camera (closeModal pg)) = (stopped (camera pg) ++ held)%list) /\
    (videoStream (camera (capturePhoto dataURL pg)) = None /\
     stopped (camera (capturePhoto dataURL pg)) = (stopped (camera pg) ++ held)%list) /\
    (videoStream (camera (submitNewPerson_response (Body true d) pg)) = None /\
     stopped (camera (submitNewPerson_response (Body true d) pg)) =
       (stopped (camera pg) ++ held)%list) /\
    stopCamera (stopCamera pg) = stopCamera pg.
Proof.
  intros pg dataURL d held.
  split; [apply stopCamera_releases|]. split; [apply closeModal_releases|].
  split; [apply capturePhoto_releases|]. split; [apply registered_releases|].
  unfold stopCamera at 1. now destruct (stopCamera_releases pg) as [-> _].
Qed.

Section CameraSessions.

Variable JsValue : Type.
Variable join_text : JsValue -> string.
Variable Number_toString : float -> string.
Variable toUpperCase : string -> string.

Local Abbreviation pact := (page_act JsValue join_text Number_toString toUpperCase).
Local Abbreviation prun := (page_run JsValue join_text Number_toString toUpperCase).

Lemma adrift_after_release (s : nat) (pg pg' : Page) :
  adrift s pg ->
  videoStream (camera pg') = None /\
  stopped (camera pg') =
    (stopped (camera pg) ++
     match videoStream (camera pg) with Some s' => [s'] | None => [] end)%list ->
  adrift s pg'.
Proof.
  intros [Hheld Hstopped] [Hnone Hlist]. split.
  - rewrite Hnone. discriminate.
  - rewrite Hlist. intros Hin. apply in_app_or in Hin. destruct Hin as [Hin|Hin].
    + contradiction.
    + destruct (videoStream (camera pg)) as [s'|]; [|contradiction].
      destruct Hin as [->|[]]. now apply Hheld.
Qed.

Lemma page_act_adrift (a : PageAction JsValue) (pg : Page) (s : nat) :
  adrift s pg -> a <> CameraAnswers JsValue (Granted s) -> adrift s (pact pg a).
Proof.
  intros H Ha.
  destruct a as [b|x|o| | |m| |u| |f| |r|r|r|i|r|r|c| |r|k v|r]; try exact H.
  - now destruct x.
  - now destruct o as [r g|r|r g|r|r g|r]; destruct r as [| |[|] d].
  - unfold pact, openAddPersonModal. now destruct (existsb _ _).
  - exact (adrift_after_release s pg _ H (closeModal_releases pg)).
  - destruct m as [s'|]; [|exact H]. destruct H as [_ Hstopped]. split; [|exact Hstopped].
    cbn. intros E. injection E as ->. now apply Ha.
  - exact (adrift_after_release s pg _ H (stopCamera_releases pg)).
  - exact (adrift_after_release s pg _ H (capturePhoto_releases u pg)).
  - unfold pact, submitNewPerson_call. now destruct (no_photo pg).
  - destruct r as [| |[|] d]; try exact H.
    exact (adrift_after_release s pg _ H (registered_releases d pg)).
  - destruct r as [| |ok d]; try exact H.
    unfold pact, loadPersonas. now destruct (ok && _).
  - destruct r as [| |ok d]; try exact H.
    unfold pact, loadEventos. now destruct (ok && _).
  - now destruct r as [| |[|] d].
  - now destruct r as [| |[|] d].
  - now destruct r as [| |[|] d].
  - now destruct r as [| |[|] d].
Qed.

(** X12. Only the stream the page holds can ever be stopped. A stream that
    is neither held nor stopped stays so through any session in which the
    camera does not hand out that same stream again: when [startCamera]
    is answered twice without a stop in between, the first stream is
    dropped with its tracks running and nothing on the page stops them
    later. *)
Theorem dropped_stream_never_stopped :
  forall (acts : list (PageAction JsValue)) (pg : Page) (s : nat),
    videoStream (camera pg) <> Some s ->
    ~ In s (stopped (camera pg)) ->
    (forall a, In a acts -> a <> CameraAnswers JsValue (Granted s)) ->
    videoStream (camera (prun acts pg)) <> Some s /\
    ~ In s (stopped (camera (prun acts pg))).
Proof.
  intros acts pg s Hheld Hstopped. revert pg Hheld Hstopped.
  induction acts as [|a acts IH]; intros pg Hheld Hstopped Hacts; [now split|].
  cbn [page_run fold_left].
  assert (H : adrift s (pact pg a)).
  { apply page_act_adrift; [now split|]. apply Hacts. now left. }
  destruct H as [H1 H2]. apply (IH _ H1 H2). intros a' Ha'. apply Hacts. now right.
Qed.

End CameraSessions.

Lemma dropped_stream_never_stopped_witness :
  let twice := startCamera (Granted 2) (startCamera (Granted 1) initial_page) in
  let acts := [Capture Scalar "data:image/jpeg;base64,AAAA"; Retake Scalar;
               CameraAnswers Scalar (Granted 3); CloseModal Scalar; StopCamera Scalar] in
  let final := page_run Scalar scalar_text sample_number_text upper_latin acts twice in
  videoStream (camera twice) = Some 2%nat /\
  stopped (camera final) = [2%nat; 3%nat] /\
  ~ In 1%nat (stopped (camera final)).
Proof.
  intros twice acts final.
  split; [reflexivity|]. split; [reflexivity|].
  apply (dropped_stream_never_stopped Scalar scalar_text sample_number_text upper_latin
           acts twice 1%nat).
  - cbn. discriminate.
  - cbn. intros [].
  - intros a Ha. cbn in Ha.
    destruct Ha as [<-|[<-|[<-|[<-|[<-|[]]]]]]; discriminate.
Defined.

(* ------------------------------------------------------------------ *)
(** ** Configuration and list loaders *)
(* ------------------------------------------------------------------ *)

(** X13. What [saveAllConfig] sends does not load back as it was. It
    posts, to [/configuracion], each flag as the string "1" when its box
    is ticked and "0" when it is not, and the two text inputs as they
    stand. [loadConfig] assigns what it receives to [checked] and to
    [value]: given those four strings back, the text inputs come back
    unchanged, but both boxes come back ticked whether they were or not,
    as they do for any flag strings that are not empty. Flags received as
    booleans load as they are. *)
Theorem saved_flags_load_checked :
  forall (Number_toString : float -> string) (c : ConfigForm) (pg : Page)
         (a f : bool) (sa sf u r : string),
    let flag := fun (ticked : bool) => if ticked then "1" else "0" in
    posted (saveAllConfig_call (set_configForm c pg)) =
      (posted pg ++
       [mkPost "http://localhost:5000/api/configuracion"
               (ConfigBody (flag (configAlertas c)) (flag (configFrames c))
                           (configUmbral c) (configRetencion c))])%list /\
    configForm (loadConfig Number_toString
                  (Body true (mkConfigData (JString (flag (configAlertas c)))
                                           (JString (flag (configFrames c)))
                                           (JString (configUmbral c))
                                           (JString (configRetencion c)))) pg) =
      mkConfigForm true true (configUmbral c) (configRetencion c) /\
    configForm (loadConfig Number_toString
                  (Body true (mkConfigData (JString sa) (JString sf)
                                           (JString u) (JString r))) pg) =
      mkConfigForm (negb (String.eqb sa "")) (negb (String.eqb sf "")) u r /\
    configForm (loadConfig Number_toString
                  (Body true (mkConfigData (JBool a) (JBool f) (JString u) (JString r))) pg) =
      mkConfigForm a f u r.
Proof.
  intros Number_toString c pg a f sa sf u r flag. split; [reflexivity|]. split.
  - destruct c as [ca cf cu cr]. now destruct ca, cf.
  - split; reflexivity.
Qed.

Lemma saved_flags_load_checked_witness :
  let c := mkConfigForm false true "0.6" "30" in
  posted (saveAllConfig_call (set_configForm c initial_page)) =
    [mkPost "http://localhost:5000/api/configuracion" (ConfigBody "0" "1" "0.6" "30")] /\
  configForm (loadConfig sample_number_text
                (Body true (mkConfigData (JString "0") (JString "1")
                                         (JString "0.6") (JString "30"))) initial_page) =
    mkConfigForm true true "0.6" "30".
Proof.
  intros c.
  destruct (saved_flags_load_checked sample_number_text c initial_page
              false false "" "" "" "") as [H1 [H2 _]].
  split; [exact H1 | exact H2].
Defined.

(** Each list loader shows its placeholder ("no recent detections",
    "no registered people", "no pending events") for a body with
    [success: false] exactly as for a successful empty list: on the page
    a refused request cannot be told from an empty result, and neither is
    logged. *)
Theorem refused_list_looks_empty :
  forall (st : State) (pg : Page)
         (ds : list Deteccion.t) (ps : list Persona) (es : list Evento.t),
    loadDetecciones (Body false ds) st = loadDetecciones (Body true []) st /\
    loadPersonas (Body false ps) pg = loadPersonas (Body true []) pg /\
    loadEventos (Body false es) pg = loadEventos (Body true []) pg /\
    deteccionesList (loadDetecciones (Body false ds) st) = NoRecientes /\
    personasList (loadPersonas (Body false ps) pg) = ViewPlaceholder /\
    eventosList (loadEventos (Body false es) pg) = ViewPlaceholder /\
    console (loadDetecciones (Body false ds) st) = console st.
Proof. intros. repeat split. Qed.

(* ------------------------------------------------------------------ *)
(** ** Order of completion in a refresh *)
(* ------------------------------------------------------------------ *)

Lemma full_order_cases (order : list Step) :
  NoDup order -> (forall s, In s order) ->
  exists a b c, order = [a; b; c] /\ a <> b /\ a <> c /\ b <> c.
Proof.
  intros Hnd Hall.
  assert (Hle : (List.length order <= 3)%nat).
  { apply (NoDup_incl_length (l' := issue_order) Hnd). intros s _. destruct s; simpl; auto. }
  assert (Hge : (3 <= List.length order)%nat).
  { apply (NoDup_incl_length (l := issue_order)).
    - unfold issue_order. repeat (constructor; [simpl; intuition discriminate|]). constructor.
    - intros s _. apply Hall. }
  destruct order as [|a [|b [|c [|d rest]]]]; simpl in Hle, Hge; try lia.
  exists a, b, c. split; [reflexivity|].
  inversion Hnd as [|? ? Ha Hnd']; subst. inversion Hnd' as [|? ? Hb Hnd'']; subst.
  simpl in Ha, Hb. repeat split; intros ->; intuition.
Qed.

Ltac unfold_state :=
  cbv beta iota delta
    [isNew count console_error set_console set_notificationCount set_stat_cells
     set_deteccionesList set_notifications set_toast set_timers set_shown
     notifications toast notificationCount statPersonas statDetecciones
     statDesconocidos statEventos deteccionesList timers intervals clock console shown].

Ltac settle_steps :=
  unfold settled, loadStats, loadDetecciones, checkNewEvents;
  repeat match goal with
         | |- context [if andb ?a ?b then _ else _] => destruct (andb a b)
         end;
  unfold_state;
  repeat match goal with
         | |- context [if ?b then _ else _] => destruct b
         end;
  rewrite ?forEach_closed; unfold_state; reflexivity.

(** X14. The three responses of a refresh may arrive in any order: the
    seen array, the alerts shown, the toast and its timers, the stat cells
    and the detections list come out the same for every order of
    completion. Only the badge, which two handlers write, and the order of
    the lines on the console depend on it. *)
Theorem refresh_order_immaterial :
  forall (order : list Step) (rs : Responses) (st : State),
    NoDup order ->
    (forall s, In s order) ->
    settled (pollCycle order rs st) = settled (pollCycle issue_order rs st).
Proof.
  intros order rs st Hnd Hall.
  destruct (full_order_cases order Hnd Hall) as [a [b [c [-> [Hab [Hac Hbc]]]]]].
  destruct rs as [rS rD rE]. destruct st.
  destruct rS as [| |[|] dS]; destruct rD as [| |okD dD]; destruct rE as [| |[|] dE];
    destruct a, b, c; try congruence;
    unfold pollCycle, issue_order; cbn [fold_left complete r_stats r_detecciones r_eventos];
    settle_steps.
Qed.

Lemma refresh_order_immaterial_witness :
  let rs := mkResponses (Body true stats0) (Body true [ana]) (Body true [ev1; ev2]) in
  settled (pollCycle [StepEventos; StepDetecciones; StepStats] rs initial_state) =
  settled (pollCycle issue_order rs initial_state).
Proof.
  intros rs.
  apply (refresh_order_immaterial [StepEventos; StepDetecciones; StepStats] rs initial_state).
  - repeat (constructor; [simpl; intuition discriminate|]). constructor.
  - intros s. destruct s; simpl; auto.
Defined.

(* ------------------------------------------------------------------ *)
(** ** Shape of the events table *)
(* ------------------------------------------------------------------ *)

Lemma uint_text_no_LF (d : Decimal.uint) :
  has_char LF (NilEmpty.string_of_uint d) = false.
Proof. induction d; simpl; assumption || reflexivity. Qed.

Lemma int_text_no_LF (z : Z) : has_char LF (Number_toString_int z) = false.
Proof.
  unfold Number_toString_int, NilZero.string_of_int, NilZero.string_of_uint.
  destruct (Z.to_int z) as [d|d]; destruct d; simpl;
    reflexivity || apply uint_text_no_LF.
Qed.

Lemma fields_free_split (c : ascii) (e : Evento.t) :
  fields_free c e = true ->
  has_char c (Evento.tipo e) = false /\
  has_char c (Evento.severidad e) = false /\
  has_char c (Evento.descripcion e) = false /\
  has_char c (Evento.timestamp e) = false /\
  has_char c (Evento.camara_nombre e) = false.
Proof. unfold fields_free. rewrite !andb_true_iff, !negb_true_iff. tauto. Qed.

Lemma evento_row_no_LF (e : Evento.t) :
  fields_free LF e = true -> has_char LF (evento_row e) = false.
Proof.
  intros H. apply fields_free_split in H. destruct H as [H1 [H2 [H3 [H4 H5]]]].
  unfold evento_row, quoted. rewrite !has_char_app, int_text_no_LF, H1, H2, H3, H4, H5.
  now destruct (Evento.resuelto e).
Qed.

Lemma quoted_no_comma (s : string) :
  has_char comma s = false -> has_char comma (quoted s) = false.
Proof. intros H. unfold quoted. now rewrite !has_char_app, H. Qed.

(** X15. The events export is a table when the fields allow it. With no
    line feed in any string field, its text splits at line feeds into the
    header and one row per event, in order (for an empty list: the header
    and one empty line). With no comma in the string fields of an event,
    its row splits at commas into seven cells, as many as the header has:
    the identifier, the five string fields each between double quotes, and
    the resolved flag. *)
Theorem eventos_csv_is_a_table :
  forall (data : list Evento.t) (e : Evento.t),
    ((forall x, In x data -> fields_free LF x = true) ->
     lines (generateEventosCSV data) =
       "ID,Tipo,Severidad,Descripcion,Timestamp,Camara,Resuelto" ::
       match data with [] => [""] | _ => map evento_row data end) /\
    (fields_free comma e = true ->
     split_on comma (evento_row e) =
       [Number_toString_int (Evento.id e); quoted (Evento.tipo e);
        quoted (Evento.severidad e); quoted (Evento.descripcion e);
        quoted (Evento.timestamp e); quoted (Evento.camara_nombre e);
        Boolean_toString (Evento.resuelto e)]) /\
    List.length (split_on comma "ID,Tipo,Severidad,Descripcion,Timestamp,Camara,Resuelto") = 7%nat.
Proof.
  intros data e. split; [|split; [|reflexivity]].
  - intros H. unfold lines.
    change (generateEventosCSV data) with
      ("ID,Tipo,Severidad,Descripcion,Timestamp,Camara,Resuelto" ++
       String LF (join (str1 LF) (map evento_row data)))%string.
    rewrite split_on_app by reflexivity. f_equal.
    destruct data as [|x xs]; [reflexivity|].
    cbn [map]. apply (split_on_join LF).
    intros y Hy. change (In y (map evento_row (x :: xs))) in Hy.
    apply in_map_iff in Hy. destruct Hy as [x' [<- Hx']].
    apply evento_row_no_LF. now apply H.
  - intros H. apply fields_free_split in H. destruct H as [H1 [H2 [H3 [H4 H5]]]].
    change (evento_row e) with
      (join (str1 comma)
         [Number_toString_int (Evento.id e); quoted (Evento.tipo e);
          quoted (Evento.severidad e); quoted (Evento.descripcion e);
          quoted (Evento.timestamp e); quoted (Evento.camara_nombre e);
          Boolean_toString (Evento.resuelto e)]).
    apply split_on_join. intros y Hy. cbn in Hy.
    destruct Hy as [<-|[<-|[<-|[<-|[<-|[<-|[<-|[]]]]]]]];
      try (now apply quoted_no_comma).
    + apply int_text_no_comma.
    + now destruct (Evento.resuelto e).
Qed.

Lemma eventos_csv_is_a_table_witness :
  lines (generateEventosCSV [ev1; ev2]) =
    ["ID,Tipo,Severidad,Descripcion,Timestamp,Camara,Resuelto";
     evento_row ev1; evento_row ev2] /\
  List.length (split_on comma (evento_row ev1)) = 7%nat.
Proof.
  destruct (eventos_csv_is_a_table [ev1; ev2] ev1) as [H1 [H2 _]].
  split.
  - apply H1. intros x Hx. cbn in Hx. destruct Hx as [<-|[<-|[]]]; reflexivity.
  - rewrite (H2 eq_refl). reflexivity.
Defined.
